(** * Consent store and aggregation engine of the bank analytics API

    A shallow embedding of [api.py]: the two in-memory tables
    ([consents_db], [aggregated_data_db]), the consent endpoints
    ([manage_consent], [revoke_consent]), the partner read path
    ([get_aggregated_data]) and the aggregation routine
    ([generate_aggregated_data]).

    Modelling conventions.
    - A Python [dict] is an insertion-ordered association list with
      string keys ([Dict]): assigning to a present key keeps its
      position, assigning to an absent key appends, iteration follows
      the list.  Iteration order is observable in the source (the
      [max] over the category totals, the list a partner reads).
    - Every endpoint is a computation in a state-and-exception monad
      over [World].  A raised [HTTPException] keeps the state reached
      so far, as in Python: nothing is rolled back.
    - [Transaction.amount] and [total_balance] are Python floats:
      IEEE 754 binary64, here Rocq's primitive [float], whose [+], [/]
      and [<] are the machine's.  The integer [0] Python uses for an
      empty list is written as the float [0].
    - [datetime.now().isoformat()] reads a clock: the n-th reading of a
      run is [now n], for an arbitrary [now]. *)

From Stdlib Require Import String Ascii List Bool Arith ZArith QArith Qabs Lia Lqa Permutation.
From Stdlib Require Import Floats.
Import ListNotations.

Set Warnings "-inexact-float".

Open Scope nat_scope.
Open Scope string_scope.

(** ** Python dictionaries with string keys *)

Module Dict.

Section Ops.
Context {V : Type}.

Definition t := list (string * V).

Definition empty : t := [].

(** [d.get(k)] *)
Fixpoint get (k : string) (d : t) : option V :=
  match d with
  | [] => None
  | (k', v) :: d' => if String.eqb k k' then Some v else get k d'
  end.

(** [k in d] *)
Definition mem (k : string) (d : t) : bool :=
  match get k d with Some _ => true | None => false end.

(** [d[k] = v] *)
Fixpoint set (k : string) (v : V) (d : t) : t :=
  match d with
  | [] => [(k, v)]
  | (k', v') :: d' =>
      if String.eqb k k' then (k', v) :: d' else (k', v') :: set k v d'
  end.

(** [del d[k]] (the callers test [k in d] first) *)
Fixpoint del (k : string) (d : t) : t :=
  match d with
  | [] => []
  | (k', v') :: d' =>
      if String.eqb k k' then d' else (k', v') :: del k d'
  end.

Definition keys (d : t) : list string := map fst d.
Definition values (d : t) : list V := map snd d.
Definition items (d : t) : list (string * V) := d.

(** Number of entries stored under key [k]; at most one in a
    dictionary, see [DictFacts.count_le_1]. *)
Definition count (k : string) (d : t) : nat :=
  length (filter (fun e => String.eqb k (fst e)) d).

End Ops.

Arguments t : clear implicits.

End Dict.

(** ** Data model (the pydantic models) *)

Module Transaction.
Record t := mk {
    id : string;
    amount : float;
    category : string;
    date : string;
    merchant : string
  }.
End Transaction.

Module ClientProfile.
Record t := mk {
    client_id : string;
    client_name : string;
    age_group : string;
    city : string;
    total_balance : float;
    transactions : list Transaction.t
  }.
End ClientProfile.

(** [manage_consent] rebuilds the stored value from the request's
    dictionary after adding a [last_updated] entry to it;
    [last_updated] is not a field of the model, so the value stored
    has the four fields of the request. *)
Module ConsentRequest.
Record t := mk {
    client_id : string;
    company : string;
    data_types : list string;
    is_active : bool
  }.
End ConsentRequest.

(** The [metrics] dictionary of an [AggregatedData]: one shape per
    dataset kind, with the keys the source writes. *)
Inductive Metrics :=
  | CategoryMetrics (spending_by_category : Dict.t float) (top_category : string)
                    (total_categories : nat) (total_spent : float)
  | AverageMetrics (average_transaction_amount min_amount max_amount : float)
                   (total_transactions : nat) (total_amount : float)
  | DemographicMetrics (age_group city : string) (average_balance : float)
                       (client_count : nat).

Module AggregatedData.
Record t := mk {
    company : string;
    data_type : string;
    metrics : Metrics;
    sample_size : nat;
    generated_at : string
  }.
End AggregatedData.

(** The built-in profile table. *)
Definition client_profiles_db : Dict.t ClientProfile.t :=
  [ ("client_1",
     ClientProfile.mk "client_1" "Иван Петров" "25-35" "Москва" 150000
       [ Transaction.mk "t1" 2500 "Рестораны" "2024-01-15" "Ресторан 'Вкусно'";
         Transaction.mk "t2" 5000 "Супермаркеты" "2024-01-14" "Пятерочка";
         Transaction.mk "t3" 12000 "Электроника" "2024-01-10" "М.Видео";
         Transaction.mk "t4" 3500 "Транспорт" "2024-01-08" "Яндекс.Такси";
         Transaction.mk "t5" 8000 "Развлечения" "2024-01-05" "Кинотеатр" ]);
    ("client_2",
     ClientProfile.mk "client_2" "Мария Сидорова" "35-45" "Санкт-Петербург" 280000
       [ Transaction.mk "t6" 15000 "Одежда" "2024-01-16" "ZARA";
         Transaction.mk "t7" 7000 "Красота" "2024-01-15" "Л'Этуаль";
         Transaction.mk "t8" 4500 "Кафе" "2024-01-12" "Starbucks";
         Transaction.mk "t9" 20000 "Путешествия" "2024-01-05" "Aeroflot";
         Transaction.mk "t10" 3000 "Фитнес" "2024-01-03" "World Class" ]);
    ("client_3",
     ClientProfile.mk "client_3" "Алексей Козлов" "18-25" "Новосибирск" 50000
       [ Transaction.mk "t11" 1500 "Фастфуд" "2024-01-17" "McDonald's";
         Transaction.mk "t12" 8000 "Электроника" "2024-01-15" "DNS";
         Transaction.mk "t13" 2000 "Образование" "2024-01-10" "Coursera";
         Transaction.mk "t14" 1000 "Транспорт" "2024-01-08" "Яндекс.Карты";
         Transaction.mk "t15" 4000 "Развлечения" "2024-01-05" "Steam" ]) ].

Definition COMPANIES : list string :=
  [ "Retail Analytics Pro"; "FinTech Insights"; "Market Research Co";
    "Consumer Trends Lab" ].

Definition AVAILABLE_DATA_TYPES : list string :=
  [ "category_spending"; "average_bill"; "spending_frequency"; "geography";
    "age_group_stats" ].

(** [x in l] for a list of strings *)
Definition list_mem (x : string) (l : list string) : bool :=
  existsb (String.eqb x) l.

(** ** Arithmetic of the aggregation *)

(** [sum(...)] over floats: the float addition applied from left to
    right, starting from 0.  (This is [sum] as CPython computes it up
    to version 3.11; from 3.12 on it carries a correction term for the
    rounding errors, which is 0 whenever the partial sums are exact,
    as they are on the built-in table.) *)
Definition py_sum (l : list float) : float := fold_left PrimFloat.add l 0%float.

(** [min(...)] and [max(...)] over a non-empty sequence [x :: l]: the
    running result is replaced only by an element that compares
    strictly smaller (larger) with the float [<], so the first
    extremal element is the one returned. *)
Fixpoint py_min (x : float) (l : list float) : float :=
  match l with
  | [] => x
  | y :: l' => py_min (if (y <? x)%float then y else x) l'
  end.

Fixpoint py_max (x : float) (l : list float) : float :=
  match l with
  | [] => x
  | y :: l' => py_max (if (x <? y)%float then y else x) l'
  end.

(** The float nearest to an integer (ties to even), as Python converts
    an [int] to a [float]. *)
Definition float_of_Z (z : Z) : float :=
  SF2Prim (binary_normalize prec emax z 0 false).

(** Nearest integer, ties to the even one. *)
Definition round_half_even (x : Q) : Z :=
  let n := Qnum x in
  let d := Z.pos (Qden x) in
  let q := (n / d)%Z in
  let r := (n mod d)%Z in
  match (2 * r ?= d)%Z with
  | Lt => q
  | Gt => (q + 1)%Z
  | Eq => if Z.even q then q else (q + 1)%Z
  end.

(** The exact value [m * 2^e] of a finite float's magnitude. *)
Definition magnitude (m : positive) (e : Z) : Q :=
  match e with
  | Z0 => (Z.pos m # 1)%Q
  | Zpos p => ((Z.pos m * 2 ^ Z.pos p) # 1)%Q
  | Zneg p => (Z.pos m # (2 ^ p))%Q
  end.

(** [round(x, 2)] on a float.  CPython rounds the exact value of [x]
    to two decimals, ties to even, and returns the float nearest to
    that decimal, with the sign of [x]; infinities and NaN are
    returned as they are.  From 2^46 on the floats are more than 0.01
    apart, so that float is [x] itself; below, the decimal is [n / 100]
    for an integer [n] under 2^53, and the float nearest to it is the
    float quotient of [n] by 100. *)
Definition py_round2 (x : float) : float :=
  match Prim2SF x with
  | S754_finite s m e =>
      if (70368744177664 <=? abs x)%float then x
      else
        let n := round_half_even (magnitude m e * 100) in
        let r := match n with
                 | Z0 => 0%float
                 | _ => (float_of_Z n / 100)%float
                 end in
        if s then (- r)%float else r
  | _ => x
  end.

(** The loop that fills [category_spending]: an absent category is
    first entered with 0, then the amount is added in place.  The
    lookup of [+=] cannot miss, the key being present by then; its
    [None] branch is never taken. *)
Definition add_transaction (category_spending : Dict.t float)
           (transaction : Transaction.t) : Dict.t float :=
  let category := Transaction.category transaction in
  let category_spending :=
    if negb (Dict.mem category category_spending)
    then Dict.set category 0%float category_spending
    else category_spending in
  match Dict.get category category_spending with
  | Some v =>
      Dict.set category (v + Transaction.amount transaction)%float category_spending
  | None => category_spending
  end.

Definition group_by_category (transactions : list Transaction.t) : Dict.t float :=
  fold_left add_transaction transactions Dict.empty.

(** [max(category_spending, key=category_spending.get)]: the keys are
    visited in dictionary order, each compared by the value stored
    with it; the running best changes only on a value that compares
    strictly larger. *)
Fixpoint max_by_value (best : string * float) (rest : list (string * float))
  : string * float :=
  match rest with
  | [] => best
  | e :: rest' =>
      max_by_value (if (snd best <? snd e)%float then e else best) rest'
  end.

Definition top_category_of (category_spending : Dict.t float) : string :=
  match category_spending with
  | [] => "Нет данных"
  | e :: rest => fst (max_by_value e rest)
  end.

(** ** State, exceptions and the clock *)

Inductive Exn :=
  | HTTPException (status_code : nat) (detail : string)
  | KeyError (key : string).

Record World := mkWorld {
    consents_db : Dict.t ConsentRequest.t;
    aggregated_data_db : Dict.t AggregatedData.t;
    clock_reads : nat
  }.

(** The tables as the module creates them. *)
Definition initial_world : World := mkWorld Dict.empty Dict.empty 0.

Definition M (A : Type) : Type := World -> (Exn + A) * World.

Definition ret {A} (a : A) : M A := fun w => (inr a, w).

Definition raise {A} (e : Exn) : M A := fun w => (inl e, w).

Definition bind {A B} (m : M A) (k : A -> M B) : M B :=
  fun w => match m w with
           | (inl e, w') => (inl e, w')
           | (inr a, w') => k a w'
           end.

Notation "x <- m ;; k" := (bind m (fun x => k))
  (at level 61, m at next level, right associativity).
Notation "m ;;; k" := (bind m (fun _ => k))
  (at level 61, right associativity).

(** ** The endpoints *)

(** Response bodies. *)
Record ConsentResponse := mkConsentResponse {
    message : string;
    consent_id : string;
    consent : ConsentRequest.t
  }.

Inductive AggregatedResponse :=
  | NoData (message : string) (data : list AggregatedData.t)
  | CompanyData (company : string) (total_datasets : nat)
                (data : list AggregatedData.t).

Definition response_data (r : AggregatedResponse) : list AggregatedData.t :=
  match r with
  | NoData _ data => data
  | CompanyData _ _ data => data
  end.

Section Api.

(** The clock, and the profile table.  The source reads the
    module-level table [client_profiles_db]; the endpoints are
    stated over an arbitrary table and used at the built-in one. *)
Variable now : nat -> string.
Variable profiles : Dict.t ClientProfile.t.

(** [datetime.now().isoformat()] *)
Definition datetime_now : M string :=
  fun w => (inr (now (clock_reads w)),
            mkWorld (consents_db w) (aggregated_data_db w) (S (clock_reads w))).

(** [consents_db[k] = c] *)
Definition consents_setitem (k : string) (c : ConsentRequest.t) : M unit :=
  fun w => (inr tt,
            mkWorld (Dict.set k c (consents_db w)) (aggregated_data_db w) (clock_reads w)).

(** [consents_db[k]] *)
Definition consents_getitem (k : string) : M ConsentRequest.t :=
  fun w => match Dict.get k (consents_db w) with
           | Some c => (inr c, w)
           | None => (inl (KeyError k), w)
           end.

(** [del consents_db[k]] *)
Definition consents_delitem (k : string) : M unit :=
  fun w => (inr tt,
            mkWorld (Dict.del k (consents_db w)) (aggregated_data_db w) (clock_reads w)).

(** [aggregated_data_db[k] = d] *)
Definition aggregated_setitem (k : string) (d : AggregatedData.t) : M unit :=
  fun w => (inr tt,
            mkWorld (consents_db w) (Dict.set k d (aggregated_data_db w)) (clock_reads w)).

(** [del aggregated_data_db[k]] *)
Definition aggregated_delitem (k : string) : M unit :=
  fun w => (inr tt,
            mkWorld (consents_db w) (Dict.del k (aggregated_data_db w)) (clock_reads w)).

(** The metrics of the three datasets, as the dictionary literals of
    [generate_aggregated_data] compute them. *)
Definition category_metrics (transactions : list Transaction.t) : Metrics :=
  let category_spending := group_by_category transactions in
  let total_amount := py_sum (map Transaction.amount transactions) in
  CategoryMetrics category_spending
                  (top_category_of category_spending)
                  (length category_spending)
                  total_amount.

Definition average_metrics (transactions : list Transaction.t) : Metrics :=
  let total_amount := py_sum (map Transaction.amount transactions) in
  let average_bill :=
    match transactions with
    | [] => 0%float
    | _ :: _ => (total_amount / float_of_Z (Z.of_nat (length transactions)))%float
    end in
  let amounts := map Transaction.amount transactions in
  AverageMetrics (py_round2 average_bill)
                 (match amounts with [] => 0%float | a :: l => py_min a l end)
                 (match amounts with [] => 0%float | a :: l => py_max a l end)
                 (length transactions)
                 total_amount.

Definition demographic_metrics (client_profile : ClientProfile.t) : Metrics :=
  DemographicMetrics (ClientProfile.age_group client_profile)
                     (ClientProfile.city client_profile)
                     (ClientProfile.total_balance client_profile)
                     1.

(** [generate_aggregated_data]: the second definition of that name
    in the module, which is the one bound when [manage_consent]
    runs. *)
Definition generate_aggregated_data (client_id company : string) : M unit :=
  match Dict.get client_id profiles with
  | None => ret tt
  | Some client_profile =>
      let transactions := ClientProfile.transactions client_profile in
      let data_key := client_id ++ "_" ++ company in
      t1 <- datetime_now ;;
      aggregated_setitem (data_key ++ "_categories")
        (AggregatedData.mk company "category_spending"
           (category_metrics transactions) 1 t1) ;;;
      t2 <- datetime_now ;;
      aggregated_setitem (data_key ++ "_average")
        (AggregatedData.mk company "average_bill"
           (average_metrics transactions) 1 t2) ;;;
      t3 <- datetime_now ;;
      aggregated_setitem (data_key ++ "_demographics")
        (AggregatedData.mk company "age_group_stats"
           (demographic_metrics client_profile) 1 t3)
  end.

(** The validation loop over [data_types]. *)
Fixpoint check_data_types (data_types : list string) : M unit :=
  match data_types with
  | [] => ret tt
  | data_type :: rest =>
      if negb (list_mem data_type AVAILABLE_DATA_TYPES)
      then raise (HTTPException 400 ("Неверный тип данных: " ++ data_type))
      else check_data_types rest
  end.

(** POST /consent *)
Definition manage_consent (consent_request : ConsentRequest.t) : M ConsentResponse :=
  if negb (Dict.mem (ConsentRequest.client_id consent_request) profiles)
  then raise (HTTPException 404 "Клиент не найден")
  else
    check_data_types (ConsentRequest.data_types consent_request) ;;;
    let consent_id :=
      ConsentRequest.client_id consent_request ++ "_"
        ++ ConsentRequest.company consent_request in
    last_updated <- datetime_now ;;
    consents_setitem consent_id consent_request ;;;
    (if ConsentRequest.is_active consent_request
     then generate_aggregated_data (ConsentRequest.client_id consent_request)
                                   (ConsentRequest.company consent_request)
     else ret tt) ;;;
    stored <- consents_getitem consent_id ;;
    ret (mkConsentResponse "Согласие успешно обновлено" consent_id stored).

(** DELETE /consent/{consent_id}.  The source also computes
    [consent_id.split('_')[-1]] into a local that is never read. *)
Definition revoke_consent (consent_id : string) : M string :=
  fun w =>
    if Dict.mem consent_id (consents_db w)
    then (consents_delitem consent_id ;;;
          let data_key := consent_id ++ "_aggregated" in
          (fun w' =>
             if Dict.mem data_key (aggregated_data_db w')
             then aggregated_delitem data_key w'
             else ret tt w') ;;;
          ret "Согласие полностью отозвано") w
    else raise (HTTPException 404 "Согласие не найдено") w.

(** GET /aggregated-data/{company} *)
Definition get_aggregated_data (company : string) : M AggregatedResponse :=
  fun w =>
    if negb (list_mem company COMPANIES)
    then raise (HTTPException 400 "Компания не найдена") w
    else
      let company_data :=
        filter (fun data => String.eqb (AggregatedData.company data) company)
               (Dict.values (aggregated_data_db w)) in
      match company_data with
      | [] => ret (NoData "Нет доступных данных для этой компании" []) w
      | _ :: _ => ret (CompanyData company (length company_data) company_data) w
      end.

(** GET /client/{client_id}/consents.  The stored model has no
    [last_updated] attribute, so that entry is always [None]. *)
Definition get_client_consents (client_id : string)
  : M (list (string * string * list string * bool * option string)) :=
  fun w =>
    ret (map (fun e => (fst e, ConsentRequest.company (snd e),
                        ConsentRequest.data_types (snd e),
                        ConsentRequest.is_active (snd e), None))
             (filter (fun e => String.eqb (ConsentRequest.client_id (snd e)) client_id)
                     (Dict.items (consents_db w)))) w.

(** GET /demo-data: three grants, each stored under its key and
    aggregated at once. *)
Definition demo_consents : list ConsentRequest.t :=
  [ ConsentRequest.mk "client_1" "Retail Analytics Pro"
      ["category_spending"; "average_bill"; "age_group_stats"] true;
    ConsentRequest.mk "client_2" "Retail Analytics Pro"
      ["category_spending"; "age_group_stats"] true;
    ConsentRequest.mk "client_3" "FinTech Insights"
      ["category_spending"; "average_bill"] true ].

Fixpoint demo_loop (consents : list ConsentRequest.t) : M unit :=
  match consents with
  | [] => ret tt
  | consent_data :: rest =>
      let consent_id :=
        ConsentRequest.client_id consent_data ++ "_"
          ++ ConsentRequest.company consent_data in
      last_updated <- datetime_now ;;
      consents_setitem consent_id consent_data ;;;
      generate_aggregated_data (ConsentRequest.client_id consent_data)
                               (ConsentRequest.company consent_data) ;;;
      demo_loop rest
  end.

Definition get_demo_data : M (string * nat) :=
  demo_loop demo_consents ;;;
  ret ("Демо-данные успешно созданы", length demo_consents).

End Api.

(** ** Vocabulary of the statements *)

Definition consent_key (client_id company : string) : string :=
  client_id ++ "_" ++ company.

Definition valid_data_types (data_types : list string) : Prop :=
  Forall (fun data_type => In data_type AVAILABLE_DATA_TYPES) data_types.

(** The first entry of [data_types] the validation loop rejects. *)
Definition first_invalid (data_types : list string) : option string :=
  find (fun data_type => negb (list_mem data_type AVAILABLE_DATA_TYPES)) data_types.

(** The suffixes [generate_aggregated_data] appends to the data key. *)
Definition dataset_suffixes : list string :=
  [ "_categories"; "_average"; "_demographics" ].

Section Effects.

Variable now : nat -> string.
Variable profiles : Dict.t ClientProfile.t.

(** The three records [generate_aggregated_data] writes for a
    profile, stamped with three successive clock readings. *)
Definition categories_record (p : ClientProfile.t) (company : string) (n : nat) :=
  AggregatedData.mk company "category_spending"
    (category_metrics (ClientProfile.transactions p)) 1 (now n).

Definition average_record (p : ClientProfile.t) (company : string) (n : nat) :=
  AggregatedData.mk company "average_bill"
    (average_metrics (ClientProfile.transactions p)) 1 (now n).

Definition demographics_record (p : ClientProfile.t) (company : string) (n : nat) :=
  AggregatedData.mk company "age_group_stats" (demographic_metrics p) 1 (now n).

Definition store_aggregates (client_id company : string) (p : ClientProfile.t)
           (n : nat) (db : Dict.t AggregatedData.t) : Dict.t AggregatedData.t :=
  let data_key := consent_key client_id company in
  Dict.set (data_key ++ "_demographics") (demographics_record p company (2 + n))
    (Dict.set (data_key ++ "_average") (average_record p company (1 + n))
       (Dict.set (data_key ++ "_categories") (categories_record p company n) db)).

(** The state a successful upsert leaves. *)
Definition after_upsert (req : ConsentRequest.t) (w : World) : World :=
  let key := consent_key (ConsentRequest.client_id req) (ConsentRequest.company req) in
  let w1 := mkWorld (Dict.set key req (consents_db w)) (aggregated_data_db w)
                    (S (clock_reads w)) in
  if ConsentRequest.is_active req
  then snd (generate_aggregated_data now profiles (ConsentRequest.client_id req)
                                     (ConsentRequest.company req) w1)
  else w1.

End Effects.

(** Both tables are dictionaries, and every grant sits under the key
    derived from its own client id and company. *)
Record wf_world (w : World) : Prop := mk_wf {
  wf_consent_keys : NoDup (Dict.keys (consents_db w));
  wf_aggregate_keys : NoDup (Dict.keys (aggregated_data_db w));
  wf_consent_keyed :
    forall k c, In (k, c) (consents_db w) ->
                k = consent_key (ConsentRequest.client_id c) (ConsentRequest.company c)
  }.

(** A clock for the concrete runs below. *)
Definition fixed_clock (n : nat) : string := "2024-01-20T10:00:00".

(** The stored datasets whose [company] field is the requested one,
    in table order. *)
Definition datasets_of (company : string) (w : World) : list AggregatedData.t :=
  filter (fun data => String.eqb (AggregatedData.company data) company)
         (Dict.values (aggregated_data_db w)).

(** What a dataset says the client spent in total, when it says it. *)
Definition reported_total (d : AggregatedData.t) : option float :=
  match AggregatedData.metrics d with
  | CategoryMetrics _ _ _ total_spent => Some total_spent
  | AverageMetrics _ _ _ _ total_amount => Some total_amount
  | DemographicMetrics _ _ _ _ => None
  end.

Definition granted_to (client_id company : string) (c : ConsentRequest.t) : bool :=
  String.eqb (ConsentRequest.client_id c) client_id
  && String.eqb (ConsentRequest.company c) company.

Fixpoint last_char (s : string) : option ascii :=
  match s with
  | EmptyString => None
  | String c EmptyString => Some c
  | String _ s' => last_char s'
  end.

(** Every key of the aggregate table ends in one of the three dataset
    suffixes. *)
Definition aggregate_keyed (w : World) : Prop :=
  forall k, In k (Dict.keys (aggregated_data_db w)) ->
            exists prefix s, In s dataset_suffixes /\ k = prefix ++ s.

(** What a mapping holds for a category, 0 when it has none. *)
Definition lookup0 (c : string) (d : Dict.t float) : float :=
  match Dict.get c d with Some v => v | None => 0%float end.

(** Amounts added one after another from 0, in the order of the
    list, as a [+=] loop over them does. *)
Definition running_sum (l : list float) : float :=
  fold_left PrimFloat.add l 0%float.

(** The amounts of the transactions of category [c], in order. *)
Definition category_amounts (c : string) (transactions : list Transaction.t)
  : list float :=
  map Transaction.amount
      (filter (fun t => String.eqb (Transaction.category t) c) transactions).

(** The categories in order of first appearance. *)
Definition remember (seen : list string) (c : string) : list string :=
  if list_mem c seen then seen else (seen ++ [c])%list.

Definition first_occurrences (l : list string) : list string :=
  fold_left remember l [].

(** A one-client table whose mean amount, 4/3, has no finite decimal
    expansion, and two tables with the same three transactions of one
    category in opposite orders. *)
Definition thirds_table : Dict.t ClientProfile.t :=
  [ ("client_9",
     ClientProfile.mk "client_9" "Ольга Орлова" "25-35" "Казань" 1000
       [ Transaction.mk "t1" 1 "Кафе" "2024-02-01" "Шоколадница";
         Transaction.mk "t2" 1 "Кафе" "2024-02-02" "Шоколадница";
         Transaction.mk "t3" 2 "Транспорт" "2024-02-03" "Метро" ]) ].

Definition tenths : list Transaction.t :=
  [ Transaction.mk "t1" 0.1 "Кафе" "2024-02-01" "Шоколадница";
    Transaction.mk "t2" 0.2 "Кафе" "2024-02-02" "Шоколадница";
    Transaction.mk "t3" 0.3 "Кафе" "2024-02-03" "Шоколадница" ].

Definition tenths_table : Dict.t ClientProfile.t :=
  [ ("client_9",
     ClientProfile.mk "client_9" "Ольга Орлова" "25-35" "Казань" 1000 tenths) ].

Definition tenths_reversed_table : Dict.t ClientProfile.t :=
  [ ("client_9",
     ClientProfile.mk "client_9" "Ольга Орлова" "25-35" "Казань" 1000 (rev tenths)) ].

(** A one-client table whose client has no transaction. *)
Definition idle_table : Dict.t ClientProfile.t :=
  [ ("client_9", ClientProfile.mk "client_9" "Ольга Орлова" "25-35" "Казань" 1000 []) ].

(** A table with two amounts in cents, and one with the same three
    amounts under two categories in opposite orders. *)
Definition cents_table : Dict.t ClientProfile.t :=
  [ ("client_9",
     ClientProfile.mk "client_9" "Ольга Орлова" "25-35" "Казань" 1000
       [ Transaction.mk "t1" 117.04 "Кафе" "2024-02-01" "Шоколадница";
         Transaction.mk "t2" 133.41 "Кафе" "2024-02-02" "Шоколадница" ]) ].

Definition mirrored_table : Dict.t ClientProfile.t :=
  [ ("client_9",
     ClientProfile.mk "client_9" "Ольга Орлова" "25-35" "Казань" 1000
       [ Transaction.mk "t1" 0.3 "Кафе" "2024-02-01" "Шоколадница";
         Transaction.mk "t2" 0.2 "Кафе" "2024-02-02" "Шоколадница";
         Transaction.mk "t3" 0.1 "Кафе" "2024-02-03" "Шоколадница";
         Transaction.mk "t4" 0.1 "Транспорт" "2024-02-04" "Метро";
         Transaction.mk "t5" 0.2 "Транспорт" "2024-02-05" "Метро";
         Transaction.mk "t6" 0.3 "Транспорт" "2024-02-06" "Метро" ]) ].

Section Steps.

Variable now : nat -> string.
Variable profiles : Dict.t ClientProfile.t.

(** One request served. *)
Inductive step (w : World) : World -> Prop :=
  | step_manage_consent req :
      step w (snd (manage_consent now profiles req w))
  | step_revoke_consent consent_id :
      step w (snd (revoke_consent consent_id w))
  | step_get_aggregated_data company :
      step w (snd (get_aggregated_data company w))
  | step_get_client_consents client_id :
      step w (snd (get_client_consents client_id w))
  | step_get_demo_data :
      step w (snd (get_demo_data now profiles w)).

Inductive reachable : World -> Prop :=
  | reachable_initial : reachable initial_world
  | reachable_step w w' : reachable w -> step w w' -> reachable w'.

End Steps.

(** ** The listing endpoints *)

Section Listings.

Variable profiles : Dict.t ClientProfile.t.

(** GET /clients *)
Definition get_available_clients : M (list string) := ret (Dict.keys profiles).

(** GET /companies *)
Definition get_available_companies : M (list string) := ret COMPANIES.

(** GET /data-types *)
Definition get_available_data_types : M (list string) := ret AVAILABLE_DATA_TYPES.

(** GET /client/{client_id} *)
Definition get_client_profile (client_id : string) : M ClientProfile.t :=
  if negb (Dict.mem client_id profiles)
  then raise (HTTPException 404 "Клиент не найден")
  else match Dict.get client_id profiles with
       | Some client_profile => ret client_profile
       | None => raise (KeyError client_id)
       end.

End Listings.

(** GET /debug/consents and GET /debug/aggregated *)
Definition debug_consents : M (Dict.t ConsentRequest.t) :=
  fun w => ret (consents_db w) w.

Definition debug_aggregated : M (Dict.t AggregatedData.t) :=
  fun w => ret (aggregated_data_db w) w.

(** One entry of the list [get_client_consents] returns: consent id,
    company, data types, active flag, last update. *)
Definition ConsentSummary : Type :=
  (string * string * list string * bool * option string)%type.

Definition summary_consent_id (e : ConsentSummary) : string :=
  fst (fst (fst (fst e))).

Definition summary_company (e : ConsentSummary) : string :=
  snd (fst (fst (fst e))).

(** The entry [get_client_consents] builds for a stored grant. *)
Definition summary_of (k : string) (c : ConsentRequest.t) : ConsentSummary :=
  (k, ConsentRequest.company c, ConsentRequest.data_types c,
   ConsentRequest.is_active c, None).

(** A string read backwards. *)
Fixpoint srev (s : string) : string :=
  match s with
  | EmptyString => EmptyString
  | String c s' => srev s' ++ String c EmptyString
  end.

(** A dataset as [generate_aggregated_data] writes it under the key
    [k]: one contributing client, and the kind, the metrics and the
    key's suffix agree. *)
Definition stored_shape (k : string) (d : AggregatedData.t) : Prop :=
  AggregatedData.sample_size d = 1
  /\ exists prefix,
       (k = prefix ++ "_categories"
        /\ AggregatedData.data_type d = "category_spending"
        /\ exists m top n total,
             AggregatedData.metrics d = CategoryMetrics m top n total)
       \/ (k = prefix ++ "_average"
           /\ AggregatedData.data_type d = "average_bill"
           /\ exists average mn mx n total,
                AggregatedData.metrics d = AverageMetrics average mn mx n total)
       \/ (k = prefix ++ "_demographics"
           /\ AggregatedData.data_type d = "age_group_stats"
           /\ exists age_group city balance,
                AggregatedData.metrics d = DemographicMetrics age_group city balance 1).

(** The aggregate keys come in complete triples. *)
Definition complete_triples (db : Dict.t AggregatedData.t) : Prop :=
  forall k, In k (Dict.keys db) ->
    exists prefix s,
      In s dataset_suffixes /\ k = prefix ++ s
      /\ forall s', In s' dataset_suffixes -> In (prefix ++ s') (Dict.keys db).

(** A table with two clients, the id of one being the id of the other
    followed by an underscore and more. *)
Definition nested_ids_table : Dict.t ClientProfile.t :=
  [ ("vip", ClientProfile.mk "vip" "Анна Белова" "35-45" "Москва" 90000
              [ Transaction.mk "t1" 700 "Кафе" "2024-03-01" "Кофемания" ]);
    ("vip_gold", ClientProfile.mk "vip_gold" "Пётр Белов" "45-55" "Москва" 400000
              [ Transaction.mk "t2" 9000 "Путешествия" "2024-03-02" "Aeroflot" ]) ].

(** ** The partner panel of the dashboard (app.py)

    The panel works on the decoded body of GET /aggregated-data: the
    datasets are taken here as the records the endpoint returned. *)

(** One round of the loop that fills [data_by_type]: a kind seen for
    the first time gets an empty list, then the dataset is appended
    to the list of its kind. *)
Definition group_dataset (data_by_type : Dict.t (list AggregatedData.t))
           (dataset : AggregatedData.t) : Dict.t (list AggregatedData.t) :=
  let data_type := AggregatedData.data_type dataset in
  let data_by_type :=
    if negb (Dict.mem data_type data_by_type)
    then Dict.set data_type [] data_by_type
    else data_by_type in
  match Dict.get data_type data_by_type with
  | Some l => Dict.set data_type (l ++ [dataset])%list data_by_type
  | None => data_by_type
  end.

Definition group_datasets (data : list AggregatedData.t)
  : Dict.t (list AggregatedData.t) :=
  fold_left group_dataset data Dict.empty.

(** [dataset["metrics"].get("spending_by_category", {})] *)
Definition spending_by_category_of (dataset : AggregatedData.t) : Dict.t float :=
  match AggregatedData.metrics dataset with
  | CategoryMetrics spending_by_category _ _ _ => spending_by_category
  | _ => Dict.empty
  end.

(** One round of the inner loop that fills [all_categories]. *)
Definition add_amount (all_categories : Dict.t float) (entry : string * float)
  : Dict.t float :=
  let category := fst entry in
  let amount := snd entry in
  let all_categories :=
    if negb (Dict.mem category all_categories)
    then Dict.set category 0%float all_categories
    else all_categories in
  match Dict.get category all_categories with
  | Some v => Dict.set category (v + amount)%float all_categories
  | None => all_categories
  end.

Definition merge_dataset (all_categories : Dict.t float) (dataset : AggregatedData.t)
  : Dict.t float :=
  fold_left add_amount (Dict.items (spending_by_category_of dataset)) all_categories.

Definition merge_category_spending (datasets : list AggregatedData.t) : Dict.t float :=
  fold_left merge_dataset datasets Dict.empty.

(** What the category metrics of any transaction list satisfy. *)
Definition category_consistent (m : Dict.t float) (top : string) (n : nat) : Prop :=
  n = length m
  /\ NoDup (Dict.keys m)
  /\ (m = [] -> top = "Нет данных")
  /\ (m <> [] -> exists v, Dict.get top m = Some v
                           /\ forall e, In e m -> (v <? snd e)%float = false).

(** What the average metrics of any transaction list satisfy. *)
Definition average_consistent (average mn mx : float) (n : nat) (total : float)
  : Prop :=
  (n = 0 -> average = 0%float /\ mn = 0%float /\ mx = 0%float /\ total = 0%float)
  /\ (0 < n ->
      average = py_round2 (total / float_of_Z (Z.of_nat n))%float
      /\ (mx <? mn)%float = false).

(** The amounts the mapping of a dataset holds under a category. *)
Definition amounts_under (c : string) (dataset : AggregatedData.t) : list float :=
  map snd (filter (fun e => String.eqb (fst e) c)
                  (Dict.items (spending_by_category_of dataset))).

(** The state after one GET /demo-data on the built-in table. *)
Definition demo_world : World :=
  snd (get_demo_data fixed_clock client_profiles_db initial_world).

(** Three category datasets and one of another kind, as a partner
    might receive them. *)
Definition panel_sample : list AggregatedData.t :=
  [ AggregatedData.mk "FinTech Insights" "category_spending"
      (CategoryMetrics [("Кафе", 0.1%float); ("Транспорт", 50%float)] "Транспорт" 2 50.1)
      1 "2024-01-20T10:00:00";
    AggregatedData.mk "FinTech Insights" "age_group_stats"
      (DemographicMetrics "25-35" "Москва" 1000 1) 1 "2024-01-20T10:00:00";
    AggregatedData.mk "FinTech Insights" "category_spending"
      (CategoryMetrics [("Кафе", 0.2%float)] "Кафе" 1 0.2) 1 "2024-01-20T10:00:01";
    AggregatedData.mk "FinTech Insights" "category_spending"
      (CategoryMetrics [("Кафе", 0.3%float)] "Кафе" 1 0.3) 1 "2024-01-20T10:00:02" ].

(** Case analysis on the comparisons of exponents and mantissas that
    the comparison of two floats unfolds to. *)
Ltac compare_cases :=
  repeat match goal with
         | |- context [(?a ?= ?b)%Z] => destruct (Z.compare_spec a b)
         | H : context [(?a ?= ?b)%Z] |- _ => destruct (Z.compare_spec a b)
         end;
  try discriminate; try reflexivity; try lia; subst;
  rewrite ?Pos.compare_cont_spec in *; simpl in *;
  repeat match goal with
         | |- context [(?a ?= ?b)%positive] => destruct (Pos.compare_spec a b)
         | H : context [(?a ?= ?b)%positive] |- _ => destruct (Pos.compare_spec a b)
         end;
  simpl in *; try discriminate; try reflexivity; try lia.

Ltac permitted := repeat (constructor; [simpl; auto 10 |]); constructor.

(** * Proofs *)

(** ** Strings *)

Lemma append_inj_l (p a b : string) : p ++ a = p ++ b -> a = b.
Proof.
  induction p as [|c p IH]; simpl; intros H.
  - exact H.
  - inversion H; auto.
Qed.

(** ** Dictionaries *)

Module DictFacts.

Import Dict.

Section Facts.

Context {V : Type}.

Implicit Types (d : Dict.t V) (k : string) (v : V).

Lemma get_set_eq k v d : get k (set k v d) = Some v.
Proof.
  induction d as [|[k' v'] d IH]; simpl.
  - now rewrite String.eqb_refl.
  - destruct (String.eqb k k') eqn:E; simpl; rewrite E; auto.
Qed.

Lemma get_set_neq k k' v d : k' <> k -> get k' (set k v d) = get k' d.
Proof.
  intros Hne. induction d as [|[k0 v0] d IH]; simpl.
  - destruct (String.eqb_spec k' k); [contradiction | reflexivity].
  - destruct (String.eqb_spec k k0) as [->|Hk]; simpl.
    + destruct (String.eqb_spec k' k0); [contradiction | reflexivity].
    + now rewrite IH.
Qed.

Lemma get_del_eq k d : NoDup (keys d) -> get k (del k d) = None.
Proof.
  induction d as [|[k0 v0] d IH]; simpl; intros ND; auto.
  inversion ND as [|? ? Hnin ND']; subst.
  destruct (String.eqb_spec k k0) as [->|Hk]; simpl.
  - clear IH ND ND'. induction d as [|[k1 v1] d IH]; simpl; auto.
    destruct (String.eqb_spec k0 k1) as [->|Hk1].
    + exfalso. apply Hnin. now left.
    + apply IH. intros Hin. apply Hnin. now right.
  - destruct (String.eqb_spec k k0); [contradiction | auto].
Qed.

Lemma get_del_neq k k' d : k' <> k -> get k' (del k d) = get k' d.
Proof.
  intros Hne. induction d as [|[k0 v0] d IH]; simpl; auto.
  destruct (String.eqb_spec k k0) as [->|Hk]; simpl.
  - destruct (String.eqb_spec k' k0); [contradiction | reflexivity].
  - now rewrite IH.
Qed.

Lemma get_Some_In k v d : get k d = Some v -> In (k, v) d.
Proof.
  induction d as [|[k0 v0] d IH]; simpl; [discriminate|].
  destruct (String.eqb_spec k k0) as [->|Hk]; intros H.
  - inversion H; now left.
  - right; auto.
Qed.

Lemma get_None_keys k d : get k d = None <-> ~ In k (keys d).
Proof.
  induction d as [|[k0 v0] d IH]; simpl.
  - split; auto.
  - destruct (String.eqb_spec k k0) as [->|Hk].
    + split; [discriminate | intros H; exfalso; apply H; now left].
    + rewrite IH. split; intros H; [intros [E|I]; [congruence | auto] | auto].
Qed.

Lemma In_get k v d : NoDup (keys d) -> In (k, v) d -> get k d = Some v.
Proof.
  induction d as [|[k0 v0] d IH]; simpl; intros ND HI; [contradiction|].
  inversion ND as [|? ? Hnin ND']; subst.
  destruct HI as [E|HI].
  - inversion E; subst. now rewrite String.eqb_refl.
  - destruct (String.eqb_spec k k0) as [->|Hk]; auto.
    exfalso. apply Hnin. change (In (fst (k0, v)) (map fst d)).
    now apply in_map.
Qed.

Lemma mem_true_iff k d : mem k d = true <-> In k (keys d).
Proof.
  unfold mem. destruct (get k d) eqn:E.
  - split; auto. intros _. apply get_Some_In in E.
    change (In (fst (k, v)) (map fst d)). now apply in_map.
  - apply get_None_keys in E. split; [discriminate | contradiction].
Qed.

Lemma mem_false_iff k d : mem k d = false <-> get k d = None.
Proof.
  unfold mem. destruct (get k d); split; congruence.
Qed.

Lemma keys_set_present k v d : In k (keys d) -> keys (set k v d) = keys d.
Proof.
  induction d as [|[k0 v0] d IH]; simpl; intros HI; [contradiction|].
  destruct (String.eqb_spec k k0) as [->|Hk]; simpl; auto.
  f_equal. apply IH. destruct HI; [congruence | auto].
Qed.

Lemma keys_set_absent k v d : ~ In k (keys d) -> keys (set k v d) = (keys d ++ [k])%list.
Proof.
  induction d as [|[k0 v0] d IH]; simpl; intros HI; auto.
  destruct (String.eqb_spec k k0) as [->|Hk]; simpl.
  - exfalso; apply HI; now left.
  - f_equal. apply IH. intros H; apply HI; now right.
Qed.

Lemma NoDup_set k v d : NoDup (keys d) -> NoDup (keys (set k v d)).
Proof.
  intros ND. destruct (in_dec string_dec k (keys d)) as [HI|HI].
  - now rewrite keys_set_present.
  - rewrite keys_set_absent by assumption.
    apply NoDup_app; [assumption | repeat constructor; intros [] | ].
    intros x Hx [<-|[]]. contradiction.
Qed.

Lemma In_keys_set k k' v d : In k' (keys (set k v d)) <-> k' = k \/ In k' (keys d).
Proof.
  destruct (in_dec string_dec k (keys d)) as [HI|HI].
  - rewrite keys_set_present by assumption. split; auto.
    intros [->|H]; auto.
  - rewrite keys_set_absent by assumption. rewrite in_app_iff. simpl.
    split; [intros [H|[H|[]]]; auto | intros [H|H]; auto].
Qed.

Lemma In_del k e d : In e (del k d) -> In e d.
Proof.
  induction d as [|[k0 v0] d IH]; simpl; auto.
  destruct (String.eqb k k0); simpl; intuition.
Qed.

Lemma NoDup_del k d : NoDup (keys d) -> NoDup (keys (del k d)).
Proof.
  induction d as [|[k0 v0] d IH]; simpl; intros ND; auto.
  inversion ND as [|? ? Hnin ND']; subst.
  destruct (String.eqb k k0); simpl; auto.
  constructor; auto. intros HI. apply Hnin.
  apply in_map_iff in HI. destruct HI as [e [E HI]]. subst k0.
  apply in_map. eapply In_del; eauto.
Qed.

Lemma In_set e k v d : In e (set k v d) -> e = (k, v) \/ In e d.
Proof.
  induction d as [|[k0 v0] d IH]; simpl.
  - intros [<-|[]]; auto.
  - destruct (String.eqb_spec k k0) as [->|Hk]; simpl.
    + intros [<-|H]; auto.
    + intros [<-|H]; auto. destruct (IH H); auto.
Qed.

Lemma count_absent k d : ~ In k (keys d) -> count k d = 0.
Proof.
  unfold count. induction d as [|[k0 v0] d IH]; simpl; intros HI; auto.
  destruct (String.eqb_spec k k0) as [->|Hk].
  - exfalso; apply HI; now left.
  - apply IH. intros H; apply HI; now right.
Qed.

Lemma count_present k d : NoDup (keys d) -> In k (keys d) -> count k d = 1.
Proof.
  unfold count. induction d as [|[k0 v0] d IH]; simpl; intros ND HI; [contradiction|].
  inversion ND as [|? ? Hnin ND']; subst.
  destruct (String.eqb_spec k k0) as [->|Hk]; simpl.
  - f_equal. now apply count_absent.
  - apply IH; auto. destruct HI; [congruence | auto].
Qed.

Lemma count_le_1 k d : NoDup (keys d) -> count k d <= 1.
Proof.
  intros ND. destruct (in_dec string_dec k (keys d)).
  - rewrite count_present; auto.
  - rewrite count_absent; auto.
Qed.

Lemma length_keys d : length (keys d) = length d.
Proof. apply length_map. Qed.

Lemma length_set_present k v d : In k (keys d) -> length (set k v d) = length d.
Proof.
  intros H. rewrite <- (length_keys (set k v d)), <- (length_keys d).
  now rewrite keys_set_present.
Qed.

Lemma length_set_absent k v d : ~ In k (keys d) -> length (set k v d) = S (length d).
Proof.
  intros H. rewrite <- (length_keys (set k v d)), <- (length_keys d).
  rewrite keys_set_absent by assumption. rewrite length_app. simpl. lia.
Qed.

End Facts.

End DictFacts.

(** ** Membership in a list of strings *)

Lemma list_mem_In x l : list_mem x l = true <-> In x l.
Proof.
  unfold list_mem. rewrite existsb_exists. split.
  - intros [y [Hy E]]. apply String.eqb_eq in E. now subst.
  - intros H. exists x. split; [assumption | apply String.eqb_refl].
Qed.

Lemma list_mem_not_In x l : list_mem x l = false <-> ~ In x l.
Proof.
  rewrite <- list_mem_In. destruct (list_mem x l); split; congruence.
Qed.

(** ** How the endpoints run *)

Lemma first_invalid_cons dt l :
  first_invalid (dt :: l) =
    if negb (list_mem dt AVAILABLE_DATA_TYPES) then Some dt else first_invalid l.
Proof. reflexivity. Qed.

Lemma first_invalid_None data_types :
  first_invalid data_types = None <-> valid_data_types data_types.
Proof.
  unfold valid_data_types. induction data_types as [|dt l IH].
  - split; auto.
  - rewrite first_invalid_cons.
    destruct (list_mem dt AVAILABLE_DATA_TYPES) eqn:E; cbn [negb].
    + rewrite IH. apply list_mem_In in E. split; intros H.
      * now constructor.
      * now inversion H.
    + apply list_mem_not_In in E. split; [discriminate|].
      intros H. inversion H; contradiction.
Qed.

Lemma first_invalid_Some data_types dt :
  first_invalid data_types = Some dt ->
  In dt data_types /\ ~ In dt AVAILABLE_DATA_TYPES.
Proof.
  unfold first_invalid. intros H. apply find_some in H. destruct H as [HI HN].
  split; [assumption|]. apply list_mem_not_In.
  now destruct (list_mem dt AVAILABLE_DATA_TYPES).
Qed.

Lemma invalid_entry_first_invalid data_types :
  (exists dt, In dt data_types /\ ~ In dt AVAILABLE_DATA_TYPES) <->
  (exists dt, first_invalid data_types = Some dt).
Proof.
  split.
  - intros [dt [HI HN]]. destruct (first_invalid data_types) eqn:E; eauto.
    apply first_invalid_None in E. unfold valid_data_types in E.
    rewrite Forall_forall in E. exfalso. apply HN. now apply E.
  - intros [dt H]. exists dt. now apply first_invalid_Some.
Qed.

Section ApiFacts.

Variable now : nat -> string.
Variable profiles : Dict.t ClientProfile.t.

Lemma generate_known client_id company p w :
  Dict.get client_id profiles = Some p ->
  generate_aggregated_data now profiles client_id company w =
    (inr tt,
     mkWorld (consents_db w)
             (store_aggregates now client_id company p (clock_reads w) (aggregated_data_db w))
             (3 + clock_reads w)).
Proof.
  intros H. unfold generate_aggregated_data. rewrite H. reflexivity.
Qed.

Lemma generate_unknown client_id company w :
  Dict.get client_id profiles = None ->
  generate_aggregated_data now profiles client_id company w = (inr tt, w).
Proof.
  intros H. unfold generate_aggregated_data. now rewrite H.
Qed.

(** [generate_aggregated_data] always returns, and never touches the
    consent table. *)
Lemma generate_total client_id company w :
  exists w', generate_aggregated_data now profiles client_id company w = (inr tt, w')
             /\ consents_db w' = consents_db w.
Proof.
  destruct (Dict.get client_id profiles) as [p|] eqn:E.
  - rewrite (generate_known _ _ p) by assumption. eauto.
  - rewrite generate_unknown by assumption. eauto.
Qed.

Lemma check_data_types_run data_types w :
  check_data_types data_types w =
    match first_invalid data_types with
    | Some dt => (inl (HTTPException 400 ("Неверный тип данных: " ++ dt)), w)
    | None => (inr tt, w)
    end.
Proof.
  induction data_types as [|dt l IH]; [reflexivity|].
  rewrite first_invalid_cons. cbn [check_data_types].
  destruct (negb (list_mem dt AVAILABLE_DATA_TYPES)); [reflexivity | exact IH].
Qed.

Lemma consents_after_upsert req w :
  consents_db (after_upsert now profiles req w) =
    Dict.set (consent_key (ConsentRequest.client_id req) (ConsentRequest.company req))
             req (consents_db w).
Proof.
  unfold after_upsert. destruct (ConsentRequest.is_active req); [|reflexivity].
  match goal with
  | |- context [generate_aggregated_data now profiles ?c ?k ?w1] =>
      destruct (generate_total c k w1) as [w' [E C]]
  end.
  rewrite E. simpl. rewrite C. reflexivity.
Qed.

(** The three outcomes of POST /consent. *)
Lemma manage_consent_run req w :
  manage_consent now profiles req w =
    if negb (Dict.mem (ConsentRequest.client_id req) profiles)
    then (inl (HTTPException 404 "Клиент не найден"), w)
    else match first_invalid (ConsentRequest.data_types req) with
         | Some dt => (inl (HTTPException 400 ("Неверный тип данных: " ++ dt)), w)
         | None =>
             (inr (mkConsentResponse "Согласие успешно обновлено"
                     (consent_key (ConsentRequest.client_id req)
                                  (ConsentRequest.company req)) req),
              after_upsert now profiles req w)
         end.
Proof.
  unfold manage_consent.
  destruct (negb (Dict.mem (ConsentRequest.client_id req) profiles)); [reflexivity|].
  unfold bind at 1. rewrite check_data_types_run.
  destruct (first_invalid (ConsentRequest.data_types req)); [reflexivity|].
  unfold after_upsert, consent_key.
  unfold bind, datetime_now, consents_setitem;
    cbn [consents_db aggregated_data_db clock_reads].
  destruct (ConsentRequest.is_active req).
  - match goal with
    | |- context [generate_aggregated_data now profiles ?c ?k ?w1] =>
        destruct (generate_total c k w1) as [w' [E C]]
    end.
    rewrite E. cbn [snd].
    unfold consents_getitem, ret. rewrite C. cbn [consents_db].
    now rewrite DictFacts.get_set_eq.
  - unfold ret, consents_getitem. cbn [consents_db].
    now rewrite DictFacts.get_set_eq.
Qed.

Lemma manage_consent_success req w p :
  Dict.get (ConsentRequest.client_id req) profiles = Some p ->
  valid_data_types (ConsentRequest.data_types req) ->
  manage_consent now profiles req w =
    (inr (mkConsentResponse "Согласие успешно обновлено"
            (consent_key (ConsentRequest.client_id req) (ConsentRequest.company req))
            req),
     after_upsert now profiles req w).
Proof.
  intros Hp Hv. rewrite manage_consent_run.
  unfold Dict.mem. rewrite Hp. simpl.
  apply first_invalid_None in Hv. now rewrite Hv.
Qed.

Lemma after_upsert_active req w p :
  Dict.get (ConsentRequest.client_id req) profiles = Some p ->
  ConsentRequest.is_active req = true ->
  after_upsert now profiles req w =
    mkWorld (Dict.set (consent_key (ConsentRequest.client_id req)
                                   (ConsentRequest.company req)) req (consents_db w))
            (store_aggregates now (ConsentRequest.client_id req) (ConsentRequest.company req)
                              p (S (clock_reads w)) (aggregated_data_db w))
            (4 + clock_reads w).
Proof.
  intros Hp Ha. unfold after_upsert. rewrite Ha.
  rewrite (generate_known _ _ p) by assumption. reflexivity.
Qed.

Lemma after_upsert_inactive req w :
  ConsentRequest.is_active req = false ->
  after_upsert now profiles req w =
    mkWorld (Dict.set (consent_key (ConsentRequest.client_id req)
                                   (ConsentRequest.company req)) req (consents_db w))
            (aggregated_data_db w) (S (clock_reads w)).
Proof.
  intros Ha. unfold after_upsert. now rewrite Ha.
Qed.

(** DELETE /consent: the two outcomes. *)
Lemma revoke_consent_run consent_id w :
  revoke_consent consent_id w =
    if Dict.mem consent_id (consents_db w)
    then (inr "Согласие полностью отозвано",
          mkWorld (Dict.del consent_id (consents_db w))
                  (if Dict.mem (consent_id ++ "_aggregated") (aggregated_data_db w)
                   then Dict.del (consent_id ++ "_aggregated") (aggregated_data_db w)
                   else aggregated_data_db w)
                  (clock_reads w))
    else (inl (HTTPException 404 "Согласие не найдено"), w).
Proof.
  unfold revoke_consent. destruct (Dict.mem consent_id (consents_db w)); [|reflexivity].
  unfold bind, consents_delitem, aggregated_delitem, ret. simpl.
  destruct (Dict.mem (consent_id ++ "_aggregated") (aggregated_data_db w)); reflexivity.
Qed.

End ApiFacts.

(** ** Keys of the aggregate table *)

Lemma eqb_append_l (p a b : string) : String.eqb (p ++ a) (p ++ b) = String.eqb a b.
Proof.
  induction p as [|c p IH]; simpl; [reflexivity|].
  now rewrite Ascii.eqb_refl.
Qed.

Lemma mem_append_l {V} (p a : string) (d : Dict.t V) (bs : list string) :
  Dict.keys d = map (fun b => p ++ b) bs ->
  Dict.mem (p ++ a) d = list_mem a bs.
Proof.
  revert bs. induction d as [|[k v] d IH]; intros [|b bs] H; simpl in H; try discriminate.
  - reflexivity.
  - inversion H; subst. unfold Dict.mem; simpl. rewrite eqb_append_l.
    destruct (String.eqb a b); [reflexivity|].
    apply (IH bs). assumption.
Qed.

Section Stored.

Variable now : nat -> string.

Lemma store_aggregates_empty client_id company p n :
  store_aggregates now client_id company p n Dict.empty =
    [ (consent_key client_id company ++ "_categories", categories_record now p company n);
      (consent_key client_id company ++ "_average", average_record now p company (1 + n));
      (consent_key client_id company ++ "_demographics",
       demographics_record now p company (2 + n)) ].
Proof.
  unfold store_aggregates, Dict.empty. cbn [Dict.set].
  rewrite eqb_append_l. cbn [String.eqb Ascii.eqb Bool.eqb andb Dict.set].
  rewrite !eqb_append_l. reflexivity.
Qed.

Lemma keys_store_aggregates client_id company p n db k :
  In k (Dict.keys (store_aggregates now client_id company p n db)) <->
  In k (Dict.keys db) \/
  In k (map (fun s => consent_key client_id company ++ s) dataset_suffixes).
Proof.
  unfold store_aggregates. rewrite !DictFacts.In_keys_set. simpl. intuition.
Qed.

Lemma NoDup_store_aggregates client_id company p n db :
  NoDup (Dict.keys db) ->
  NoDup (Dict.keys (store_aggregates now client_id company p n db)).
Proof.
  intros H. unfold store_aggregates. now repeat apply DictFacts.NoDup_set.
Qed.

Lemma get_categories_stored client_id company p n db :
  Dict.get (consent_key client_id company ++ "_categories")
           (store_aggregates now client_id company p n db)
  = Some (categories_record now p company n).
Proof.
  unfold store_aggregates.
  do 2 (rewrite DictFacts.get_set_neq;
        [| intros E; apply append_inj_l in E; discriminate]).
  apply DictFacts.get_set_eq.
Qed.

Lemma get_average_stored client_id company p n db :
  Dict.get (consent_key client_id company ++ "_average")
           (store_aggregates now client_id company p n db)
  = Some (average_record now p company (1 + n)).
Proof.
  unfold store_aggregates.
  rewrite DictFacts.get_set_neq; [apply DictFacts.get_set_eq |].
  intros E; apply append_inj_l in E; discriminate.
Qed.

Lemma get_demographics_stored client_id company p n db :
  Dict.get (consent_key client_id company ++ "_demographics")
           (store_aggregates now client_id company p n db)
  = Some (demographics_record now p company (2 + n)).
Proof.
  unfold store_aggregates. apply DictFacts.get_set_eq.
Qed.

(** Storing a second time over the same pair replaces the three
    records in place. *)
Lemma length_store_aggregates_again client_id company p n m db :
  length (store_aggregates now client_id company p m
            (store_aggregates now client_id company p n db))
  = length (store_aggregates now client_id company p n db).
Proof.
  set (db1 := store_aggregates now client_id company p n db).
  assert (H : forall s, In s dataset_suffixes ->
                        In (consent_key client_id company ++ s) (Dict.keys db1)).
  { intros s Hs. apply keys_store_aggregates. right.
    now apply (in_map (fun s => consent_key client_id company ++ s)). }
  unfold store_aggregates at 1.
  rewrite !DictFacts.length_set_present; auto.
  - apply H; simpl; auto.
  - apply DictFacts.In_keys_set. right. apply H; simpl; auto.
  - apply DictFacts.In_keys_set. right. apply DictFacts.In_keys_set. right.
    apply H; simpl; auto.
Qed.

End Stored.

(** ** Well-formed tables *)

Lemma wf_initial_world : wf_world initial_world.
Proof.
  split; simpl; try constructor. intros k c [].
Qed.

Section Invariant.

Variable now : nat -> string.
Variable profiles : Dict.t ClientProfile.t.

Lemma wf_after_upsert req w :
  wf_world w -> wf_world (after_upsert now profiles req w).
Proof.
  intros [H1 H2 H3]. split.
  - rewrite consents_after_upsert. now apply DictFacts.NoDup_set.
  - unfold after_upsert. destruct (ConsentRequest.is_active req); [|assumption].
    destruct (Dict.get (ConsentRequest.client_id req) profiles) as [p|] eqn:E.
    + rewrite (generate_known _ _ _ _ p) by assumption. simpl.
      now apply NoDup_store_aggregates.
    + rewrite generate_unknown by assumption. assumption.
  - rewrite consents_after_upsert. intros k c HI.
    apply DictFacts.In_set in HI. destruct HI as [E|HI]; [|auto].
    now inversion E.
Qed.

Lemma wf_after_revoke consent_id w :
  wf_world w -> wf_world (snd (revoke_consent consent_id w)).
Proof.
  intros [H1 H2 H3]. rewrite revoke_consent_run.
  destruct (Dict.mem consent_id (consents_db w)); simpl; [|now split].
  split; simpl.
  - now apply DictFacts.NoDup_del.
  - destruct (Dict.mem _ (aggregated_data_db w)); [now apply DictFacts.NoDup_del | assumption].
  - intros k c HI. apply H3. eapply DictFacts.In_del; eauto.
Qed.

End Invariant.

(** ** Failure leaves the tables alone *)

Section Failures.

Variable now : nat -> string.
Variable profiles : Dict.t ClientProfile.t.

Lemma upsert_not_found_iff req w :
  (exists d w', manage_consent now profiles req w = (inl (HTTPException 404 d), w'))
  <-> Dict.mem (ConsentRequest.client_id req) profiles = false.
Proof.
  rewrite manage_consent_run.
  destruct (Dict.mem (ConsentRequest.client_id req) profiles); cbn [negb].
  - split; [|discriminate]. intros [d [w' E]].
    destruct (first_invalid (ConsentRequest.data_types req)); discriminate E.
  - split; [reflexivity | intros _; eauto].
Qed.

Lemma upsert_invalid_argument_iff req w :
  (exists d w', manage_consent now profiles req w = (inl (HTTPException 400 d), w'))
  <-> Dict.mem (ConsentRequest.client_id req) profiles = true
      /\ exists dt, In dt (ConsentRequest.data_types req)
                    /\ ~ In dt AVAILABLE_DATA_TYPES.
Proof.
  rewrite manage_consent_run, invalid_entry_first_invalid.
  destruct (Dict.mem (ConsentRequest.client_id req) profiles); cbn [negb].
  - destruct (first_invalid (ConsentRequest.data_types req)) as [dt|].
    + split; eauto.
    + split.
      * intros [d [w' E]]; discriminate E.
      * intros [_ [dt E]]; discriminate E.
  - split.
    + intros [d [w' E]]; discriminate E.
    + intros [E _]; discriminate E.
Qed.

Lemma upsert_failure_frame req w e w' :
  manage_consent now profiles req w = (inl e, w') -> w' = w.
Proof.
  rewrite manage_consent_run.
  destruct (negb (Dict.mem (ConsentRequest.client_id req) profiles)).
  - intros E; now inversion E.
  - destruct (first_invalid (ConsentRequest.data_types req)); intros E.
    + now inversion E.
    + discriminate E.
Qed.

Lemma revoke_failure_iff consent_id w :
  (exists e w', revoke_consent consent_id w = (inl e, w'))
  <-> Dict.mem consent_id (consents_db w) = false.
Proof.
  rewrite revoke_consent_run. destruct (Dict.mem consent_id (consents_db w)).
  - split; [|discriminate]. intros [e [w' E]]; discriminate E.
  - split; [reflexivity | intros _; eauto].
Qed.

Lemma revoke_failure_frame consent_id w e w' :
  revoke_consent consent_id w = (inl e, w') ->
  e = HTTPException 404 "Согласие не найдено" /\ w' = w.
Proof.
  rewrite revoke_consent_run. destruct (Dict.mem consent_id (consents_db w)); intros E.
  - discriminate E.
  - now inversion E.
Qed.

(** C5, as the code has it: the upsert checks the client first, so
    it answers 404 exactly for an unknown client, and 400 exactly for
    a known client with some data type outside the permitted list;
    a failing upsert returns the world it was given, and so does a
    failing revoke, which fails exactly on an absent key. *)
Theorem upsert_and_revoke_failures (req : ConsentRequest.t) (consent_id : string)
        (w : World) :
  ((exists d w', manage_consent now profiles req w = (inl (HTTPException 404 d), w'))
   <-> Dict.mem (ConsentRequest.client_id req) profiles = false)
  /\ ((exists d w', manage_consent now profiles req w = (inl (HTTPException 400 d), w'))
      <-> Dict.mem (ConsentRequest.client_id req) profiles = true
          /\ exists dt, In dt (ConsentRequest.data_types req)
                        /\ ~ In dt AVAILABLE_DATA_TYPES)
  /\ (forall e w', manage_consent now profiles req w = (inl e, w') -> w' = w)
  /\ ((exists e w', revoke_consent consent_id w = (inl e, w'))
      <-> Dict.mem consent_id (consents_db w) = false)
  /\ (forall e w', revoke_consent consent_id w = (inl e, w') ->
                   e = HTTPException 404 "Согласие не найдено" /\ w' = w).
Proof.
  split; [apply upsert_not_found_iff|].
  split; [apply upsert_invalid_argument_iff|].
  split; [intros e w'; apply upsert_failure_frame|].
  split; [apply revoke_failure_iff|].
  intros e w'; apply revoke_failure_frame.
Qed.

End Failures.

(** ** The partner read path *)

Lemma In_datasets_of company w d :
  In d (datasets_of company w) <->
  In d (Dict.values (aggregated_data_db w)) /\ AggregatedData.company d = company.
Proof.
  unfold datasets_of. rewrite filter_In, String.eqb_eq. reflexivity.
Qed.

Lemma get_aggregated_data_run company w :
  get_aggregated_data company w =
    if list_mem company COMPANIES
    then (inr (match datasets_of company w with
               | [] => NoData "Нет доступных данных для этой компании" []
               | _ :: _ => CompanyData company (length (datasets_of company w))
                                       (datasets_of company w)
               end), w)
    else (inl (HTTPException 400 "Компания не найдена"), w).
Proof.
  unfold get_aggregated_data, datasets_of.
  destruct (list_mem company COMPANIES); cbn [negb]; [|reflexivity].
  destruct (filter _ _); reflexivity.
Qed.

(** C6: the read fails, with 400, exactly for a company outside
    [COMPANIES]; for a partner it returns, without changing the state,
    every stored dataset whose company field is the requested one
    (whatever client or kind wrote it), and when there is none the
    answer is the empty list under an explanatory message. *)
Theorem aggregate_read_contract (company : string) (w : World) :
  ((exists e w', get_aggregated_data company w = (inl e, w')) <-> ~ In company COMPANIES)
  /\ (~ In company COMPANIES ->
      get_aggregated_data company w = (inl (HTTPException 400 "Компания не найдена"), w))
  /\ (In company COMPANIES ->
      exists resp,
        get_aggregated_data company w = (inr resp, w)
        /\ response_data resp = datasets_of company w
        /\ (forall d, In d (response_data resp) <->
                      In d (Dict.values (aggregated_data_db w))
                      /\ AggregatedData.company d = company)
        /\ (datasets_of company w = [] ->
            resp = NoData "Нет доступных данных для этой компании" [])
        /\ (datasets_of company w <> [] ->
            resp = CompanyData company (length (datasets_of company w))
                               (datasets_of company w))).
Proof.
  rewrite get_aggregated_data_run, <- list_mem_not_In, <- list_mem_In.
  destruct (list_mem company COMPANIES).
  - split; [|split].
    + split; [|discriminate]. intros [e [w' E]]; discriminate E.
    + discriminate.
    + intros _. eexists. split; [reflexivity|].
      assert (R : response_data
                    match datasets_of company w with
                    | [] => NoData "Нет доступных данных для этой компании" []
                    | _ :: _ => CompanyData company (length (datasets_of company w))
                                            (datasets_of company w)
                    end = datasets_of company w)
        by (destruct (datasets_of company w); reflexivity).
      split; [exact R|]. split; [|split].
      * intros d. rewrite R. apply In_datasets_of.
      * intros E. now rewrite E.
      * intros NE. destruct (datasets_of company w); [contradiction | reflexivity].
  - split; [|split].
    + split; [reflexivity | intros _; eauto].
    + reflexivity.
    + discriminate.
Qed.

(** ** Upserts *)

Section Upserts.

Variable now : nat -> string.
Variable profiles : Dict.t ClientProfile.t.

(** C8: with valid arguments an upsert with [is_active = false]
    succeeds, stores the grant under the pair's key, and returns the
    aggregate table exactly as it found it. *)
Theorem inactive_upsert_keeps_aggregates
        (client_id company : string) (data_types : list string)
        (p : ClientProfile.t) (w : World) :
  Dict.get client_id profiles = Some p ->
  valid_data_types data_types ->
  let req := ConsentRequest.mk client_id company data_types false in
  exists resp w',
    manage_consent now profiles req w = (inr resp, w')
    /\ Dict.get (consent_key client_id company) (consents_db w') = Some req
    /\ aggregated_data_db w' = aggregated_data_db w.
Proof.
  intros Hp Hv req.
  exists (mkConsentResponse "Согласие успешно обновлено"
                            (consent_key client_id company) req),
         (after_upsert now profiles req w).
  split; [exact (manage_consent_success now profiles req w p Hp Hv)|].
  rewrite after_upsert_inactive by reflexivity. cbn [consents_db aggregated_data_db].
  split; [apply DictFacts.get_set_eq | reflexivity].
Qed.

Lemma datasets_of_fresh client_id company p n consents ticks :
  datasets_of company
    (mkWorld consents (store_aggregates now client_id company p n Dict.empty) ticks)
  = [ categories_record now p company n;
      average_record now p company (1 + n);
      demographics_record now p company (2 + n) ].
Proof.
  unfold datasets_of. cbn [aggregated_data_db].
  rewrite store_aggregates_empty. cbn [Dict.values map snd filter].
  unfold categories_record, average_record, demographics_record.
  cbn [AggregatedData.company]. now rewrite String.eqb_refl.
Qed.

(** C2, for a partner company: from empty tables, an active upsert
    for a known client with permitted data types succeeds, and the
    read for that company then returns exactly three datasets, the
    category and average ones both reporting the sum of the client's
    transaction amounts as the total. *)
Theorem active_upsert_then_read
        (client_id company : string) (data_types : list string)
        (p : ClientProfile.t) (w : World) :
  Dict.get client_id profiles = Some p ->
  In company COMPANIES ->
  valid_data_types data_types ->
  consents_db w = Dict.empty ->
  aggregated_data_db w = Dict.empty ->
  exists resp w' d1 d2 d3,
    manage_consent now profiles
      (ConsentRequest.mk client_id company data_types true) w = (inr resp, w')
    /\ get_aggregated_data company w' = (inr (CompanyData company 3 [d1; d2; d3]), w')
    /\ reported_total d1
       = Some (py_sum (map Transaction.amount (ClientProfile.transactions p)))
    /\ reported_total d2
       = Some (py_sum (map Transaction.amount (ClientProfile.transactions p)))
    /\ reported_total d3 = None.
Proof.
  intros Hp Hc Hv Hcons Hagg.
  set (req := ConsentRequest.mk client_id company data_types true).
  exists (mkConsentResponse "Согласие успешно обновлено"
                            (consent_key client_id company) req),
         (after_upsert now profiles req w),
         (categories_record now p company (S (clock_reads w))),
         (average_record now p company (1 + S (clock_reads w))),
         (demographics_record now p company (2 + S (clock_reads w))).
  split; [exact (manage_consent_success now profiles req w p Hp Hv)|].
  rewrite (after_upsert_active now profiles req w p Hp eq_refl).
  cbn [ConsentRequest.client_id ConsentRequest.company req].
  rewrite Hagg. split; [|repeat split].
  rewrite get_aggregated_data_run.
  apply list_mem_In in Hc. rewrite Hc.
  rewrite datasets_of_fresh. reflexivity.
Qed.

(** C10: the upsert never looks at [COMPANIES].  For a known client
    and permitted data types, an upsert naming a company outside the
    list succeeds; when active it leaves three datasets carrying that
    company under the pair's keys; the read for that company is
    rejected in every state, and no read at all returns a dataset
    carrying it. *)
Theorem upsert_ignores_partner_list
        (client_id company : string) (data_types : list string) (is_active : bool)
        (p : ClientProfile.t) (w : World) :
  Dict.get client_id profiles = Some p ->
  valid_data_types data_types ->
  ~ In company COMPANIES ->
  exists resp w',
    manage_consent now profiles
      (ConsentRequest.mk client_id company data_types is_active) w = (inr resp, w')
    /\ (is_active = true ->
        forall s, In s dataset_suffixes ->
          exists d, Dict.get (consent_key client_id company ++ s) (aggregated_data_db w')
                    = Some d
                    /\ AggregatedData.company d = company)
    /\ (forall w1, get_aggregated_data company w1
                   = (inl (HTTPException 400 "Компания не найдена"), w1))
    /\ (forall asked w1 resp1 w2,
          get_aggregated_data asked w1 = (inr resp1, w2) ->
          forall d, In d (response_data resp1) -> AggregatedData.company d <> company).
Proof.
  intros Hp Hv Hc.
  set (req := ConsentRequest.mk client_id company data_types is_active).
  exists (mkConsentResponse "Согласие успешно обновлено"
                            (consent_key client_id company) req),
         (after_upsert now profiles req w).
  split; [exact (manage_consent_success now profiles req w p Hp Hv)|].
  split; [|split].
  - intros ->. rewrite (after_upsert_active now profiles req w p Hp eq_refl).
    cbn [aggregated_data_db ConsentRequest.client_id ConsentRequest.company req].
    intros s [<-|[<-|[<-|[]]]].
    + rewrite get_categories_stored. eauto.
    + rewrite get_average_stored. eauto.
    + rewrite get_demographics_stored. eauto.
  - intros w1. rewrite get_aggregated_data_run.
    apply list_mem_not_In in Hc. now rewrite Hc.
  - intros asked w1 resp1 w2. rewrite get_aggregated_data_run.
    destruct (list_mem asked COMPANIES) eqn:E; [|discriminate].
    intros H d Hd Hcomp. inversion H; subst resp1 w2. clear H.
    assert (Hd' : In d (datasets_of asked w1))
      by (destruct (datasets_of asked w1); [destruct Hd | exact Hd]).
    apply In_datasets_of in Hd'. destruct Hd' as [_ Heq].
    apply list_mem_In in E. apply Hc. congruence.
Qed.

End Upserts.

(** ** Upserting twice *)

Lemma filter_values_none {V} (test : V -> bool) (d : Dict.t V) :
  (forall k c, In (k, c) d -> test c = false) ->
  filter test (Dict.values d) = [].
Proof.
  induction d as [|[k0 v0] d IH]; simpl; intros H; [reflexivity|].
  rewrite (H k0 v0) by now left. apply IH. intros k c HI. apply (H k c). now right.
Qed.

Lemma filter_values_unique {V} (test : V -> bool) k v (d : Dict.t V) :
  NoDup (Dict.keys d) ->
  Dict.get k d = Some v ->
  test v = true ->
  (forall k' c, In (k', c) d -> test c = true -> k' = k) ->
  filter test (Dict.values d) = [v].
Proof.
  induction d as [|[k0 v0] d IH]; simpl; intros ND Hg Ht Hk; [discriminate|].
  inversion ND as [|? ? Hnin ND']; subst.
  destruct (String.eqb_spec k k0) as [->|Hne].
  - inversion Hg; subst v0. rewrite Ht. f_equal.
    apply filter_values_none. intros k1 c HI.
    destruct (test c) eqn:E; [|reflexivity].
    exfalso. apply Hnin. rewrite <- (Hk k1 c (or_intror HI) E).
    change (In (fst (k1, c)) (map fst d)). now apply in_map.
  - destruct (test v0) eqn:E.
    + exfalso. apply Hne. symmetry. apply (Hk k0 v0); [now left | exact E].
    + apply IH; auto. intros k' c HI. apply Hk. now right.
Qed.

Section Twice.

Variable now : nat -> string.
Variable profiles : Dict.t ClientProfile.t.

(** C7: two active upserts for the same pair, from any well-formed
    state.  Both succeed; afterwards the grants for the pair are the
    second request alone (so its data types are the stored ones, with
    nothing of the first left), one entry sits under the pair's key,
    one record sits under each of the three dataset keys, and the
    second upsert did not lengthen the aggregate table.  From empty
    tables that is one grant and three datasets in all. *)
Theorem upsert_twice_replaces
        (client_id company : string) (data_types1 data_types2 : list string)
        (p : ClientProfile.t) (w : World) :
  Dict.get client_id profiles = Some p ->
  valid_data_types data_types1 ->
  valid_data_types data_types2 ->
  wf_world w ->
  let req1 := ConsentRequest.mk client_id company data_types1 true in
  let req2 := ConsentRequest.mk client_id company data_types2 true in
  let key := consent_key client_id company in
  exists r1 w1 r2 w2,
    manage_consent now profiles req1 w = (inr r1, w1)
    /\ manage_consent now profiles req2 w1 = (inr r2, w2)
    /\ filter (granted_to client_id company) (Dict.values (consents_db w2)) = [req2]
    /\ Dict.count key (consents_db w2) = 1
    /\ (forall s, In s dataset_suffixes ->
                  Dict.count (key ++ s) (aggregated_data_db w2) = 1)
    /\ length (aggregated_data_db w2) = length (aggregated_data_db w1)
    /\ (consents_db w = Dict.empty -> aggregated_data_db w = Dict.empty ->
        length (consents_db w2) = 1 /\ length (aggregated_data_db w2) = 3).
Proof.
  intros Hp Hv1 Hv2 Hwf req1 req2 key.
  pose (w1 := after_upsert now profiles req1 w).
  pose (w2 := after_upsert now profiles req2 w1).
  exists (mkConsentResponse "Согласие успешно обновлено" key req1), w1,
         (mkConsentResponse "Согласие успешно обновлено" key req2), w2.
  assert (Hwf2 : wf_world w2) by (do 2 apply wf_after_upsert; assumption).
  assert (Hc2 : consents_db w2 = Dict.set key req2 (Dict.set key req1 (consents_db w))).
  { unfold w2, w1. now rewrite !consents_after_upsert. }
  assert (Ha1 : aggregated_data_db w1
                = store_aggregates now client_id company p (S (clock_reads w))
                                   (aggregated_data_db w)).
  { unfold w1. now rewrite (after_upsert_active now profiles req1 w p Hp eq_refl). }
  assert (Ha2 : aggregated_data_db w2
                = store_aggregates now client_id company p (S (clock_reads w1))
                                   (aggregated_data_db w1)).
  { unfold w2. now rewrite (after_upsert_active now profiles req2 w1 p Hp eq_refl). }
  destruct Hwf2 as [ND2 NDa2 Hkeyed].
  split; [exact (manage_consent_success now profiles req1 w p Hp Hv1)|].
  split; [exact (manage_consent_success now profiles req2 w1 p Hp Hv2)|].
  split; [|split; [|split; [|split]]].
  - apply (filter_values_unique _ key); auto.
    + rewrite Hc2. apply DictFacts.get_set_eq.
    + unfold granted_to, req2. cbn. now rewrite !String.eqb_refl.
    + intros k' c HI Ht. unfold granted_to in Ht.
      apply andb_true_iff in Ht. destruct Ht as [E1 E2].
      apply String.eqb_eq in E1, E2. rewrite (Hkeyed k' c HI). unfold key. congruence.
  - apply DictFacts.count_present; auto. rewrite Hc2. apply DictFacts.In_keys_set. now left.
  - intros s Hs. apply DictFacts.count_present; auto.
    rewrite Ha2. apply keys_store_aggregates. right.
    now apply (in_map (fun s => consent_key client_id company ++ s)).
  - rewrite Ha2, Ha1. apply length_store_aggregates_again.
  - intros Ec Ea. split.
    + rewrite Hc2, Ec. unfold Dict.empty. cbn [Dict.set].
      now rewrite String.eqb_refl.
    + rewrite Ha2, Ha1, length_store_aggregates_again, Ea, store_aggregates_empty.
      reflexivity.
Qed.

End Twice.

(** ** Revoking *)

Lemma last_char_append (p s : string) :
  s <> EmptyString -> last_char (p ++ s) = last_char s.
Proof.
  intros Hs. induction p as [|c p IH]; [reflexivity|].
  simpl. destruct (p ++ s) eqn:E; [|exact IH].
  destruct p; simpl in E; [contradiction | discriminate].
Qed.

Lemma aggregate_keyed_initial : aggregate_keyed initial_world.
Proof. intros k []. Qed.

Lemma aggregated_key_absent consent_id w :
  aggregate_keyed w ->
  Dict.mem (consent_id ++ "_aggregated") (aggregated_data_db w) = false.
Proof.
  intros H. destruct (Dict.mem _ _) eqn:E; [|reflexivity].
  apply DictFacts.mem_true_iff in E. destruct (H _ E) as [prefix [s [Hs Heq]]].
  apply (f_equal last_char) in Heq.
  rewrite last_char_append in Heq by discriminate.
  destruct Hs as [<-|[<-|[<-|[]]]];
    rewrite last_char_append in Heq by discriminate; discriminate Heq.
Qed.

Section Revoke.

Variable now : nat -> string.
Variable profiles : Dict.t ClientProfile.t.

Lemma aggregate_keyed_after_upsert req w :
  aggregate_keyed w -> aggregate_keyed (after_upsert now profiles req w).
Proof.
  intros H. unfold after_upsert.
  destruct (ConsentRequest.is_active req); [|exact H].
  destruct (Dict.get (ConsentRequest.client_id req) profiles) as [p|] eqn:E.
  - rewrite (generate_known _ _ _ _ p) by assumption. cbn [snd].
    intros k Hk. cbn [aggregated_data_db] in Hk.
    apply keys_store_aggregates in Hk. destruct Hk as [Hk|Hk].
    + now apply H.
    + apply in_map_iff in Hk. destruct Hk as [s [<- Hs]]. eauto.
  - rewrite generate_unknown by assumption. exact H.
Qed.

(** In a state whose aggregate keys all carry a dataset suffix, and
    every state the endpoints reach is one, a successful revoke
    removes the grant and nothing from the aggregate table: the key
    it looks for, the consent key followed by "_aggregated", is never
    there. *)
Lemma revoke_keeps_aggregate_table consent_id w :
  aggregate_keyed w ->
  Dict.mem consent_id (consents_db w) = true ->
  revoke_consent consent_id w =
    (inr "Согласие полностью отозвано",
     mkWorld (Dict.del consent_id (consents_db w)) (aggregated_data_db w)
             (clock_reads w)).
Proof.
  intros Hk Hm. rewrite revoke_consent_run, Hm.
  now rewrite aggregated_key_absent.
Qed.

Lemma aggregate_keyed_after_revoke consent_id w :
  aggregate_keyed w -> aggregate_keyed (snd (revoke_consent consent_id w)).
Proof.
  intros H. rewrite revoke_consent_run.
  destruct (Dict.mem consent_id (consents_db w)); [|exact H].
  cbn [snd]. unfold aggregate_keyed. cbn [aggregated_data_db].
  now rewrite aggregated_key_absent.
Qed.

End Revoke.

(** ** Reachable states *)

Section Reachable.

Variable now : nat -> string.
Variable profiles : Dict.t ClientProfile.t.

Lemma demo_loop_run consents w :
  Forall (fun c => ConsentRequest.is_active c = true) consents ->
  demo_loop now profiles consents w =
    (inr tt, fold_left (fun w c => after_upsert now profiles c w) consents w).
Proof.
  revert w. induction consents as [|c l IH]; intros w H; [reflexivity|].
  inversion H as [|? ? Hc Hl]; subst. cbn [demo_loop fold_left].
  unfold bind at 1 2 3, datetime_now, consents_setitem.
  cbn [consents_db aggregated_data_db clock_reads].
  unfold after_upsert at 2, consent_key. rewrite Hc.
  match goal with
  | |- context [generate_aggregated_data now profiles ?a ?b ?w1] =>
      destruct (generate_total now profiles a b w1) as [w' [E _]]
  end.
  rewrite E. cbn [snd]. now apply IH.
Qed.

Lemma get_demo_data_world w :
  snd (get_demo_data now profiles w)
  = fold_left (fun w c => after_upsert now profiles c w) demo_consents w.
Proof.
  unfold get_demo_data, bind. rewrite demo_loop_run; [reflexivity|].
  repeat constructor.
Qed.

Lemma step_invariant w w' :
  step now profiles w w' -> wf_world w /\ aggregate_keyed w -> wf_world w' /\ aggregate_keyed w'.
Proof.
  intros Hs [Hwf Hk]. destruct Hs.
  - rewrite manage_consent_run.
    destruct (negb _); [now split|].
    destruct (first_invalid _); [now split|]. cbn [snd]. split.
    + now apply wf_after_upsert.
    + now apply aggregate_keyed_after_upsert.
  - split; [now apply wf_after_revoke | now apply aggregate_keyed_after_revoke].
  - rewrite get_aggregated_data_run. destruct (list_mem _ _); now split.
  - now split.
  - rewrite get_demo_data_world. generalize demo_consents. intros l.
    revert w Hwf Hk. induction l as [|c l IH]; intros w Hwf Hk; [now split|].
    cbn [fold_left]. apply IH.
    + now apply wf_after_upsert.
    + now apply aggregate_keyed_after_upsert.
Qed.

(** Every state the endpoints reach from the empty tables is
    well formed, with every aggregate key ending in a dataset
    suffix. *)
Lemma reachable_invariant w :
  reachable now profiles w -> wf_world w /\ aggregate_keyed w.
Proof.
  induction 1 as [|w w' _ IH Hs].
  - split; [apply wf_initial_world | apply aggregate_keyed_initial].
  - eapply step_invariant; eauto.
Qed.

(** So in every reachable state a revoke that succeeds leaves the
    whole aggregate table in place. *)
Lemma reachable_revoke_keeps_aggregates w consent_id msg w' :
  reachable now profiles w ->
  revoke_consent consent_id w = (inr msg, w') ->
  aggregated_data_db w' = aggregated_data_db w
  /\ consents_db w' = Dict.del consent_id (consents_db w).
Proof.
  intros Hr. destruct (reachable_invariant w Hr) as [_ Hk].
  rewrite revoke_consent_run.
  destruct (Dict.mem consent_id (consents_db w)); [|discriminate].
  rewrite aggregated_key_absent by assumption.
  intros E; inversion E; subst. now split.
Qed.

End Reachable.

(** ** The order of the floats *)

(** [<] and [<=] on binary64 are partial (NaN compares with nothing),
    but [<] is still a strict order and agrees with [<=]. *)

Lemma SFcompare_Lt_trans a b c :
  SFcompare a b = Some Lt -> SFcompare b c = Some Lt -> SFcompare a c = Some Lt.
Proof.
  unfold SFcompare.
  destruct a as [[]|[]| |[] ma ea], b as [[]|[]| |[] mb eb], c as [[]|[]| |[] mc ec];
    try discriminate; try reflexivity; intros H1 H2; compare_cases.
Qed.

Lemma SFcompare_Lt_Eq a b c :
  SFcompare a b = Some Lt -> SFcompare b c = Some Eq -> SFcompare a c = Some Lt.
Proof.
  unfold SFcompare.
  destruct a as [[]|[]| |[] ma ea], b as [[]|[]| |[] mb eb], c as [[]|[]| |[] mc ec];
    try discriminate; try reflexivity; intros H1 H2; compare_cases.
Qed.

Lemma SFcompare_Lt_Gt a b : SFcompare a b = Some Lt -> SFcompare b a = Some Gt.
Proof.
  unfold SFcompare.
  destruct a as [[]|[]| |[] ma ea], b as [[]|[]| |[] mb eb];
    try discriminate; try reflexivity; intros H1; compare_cases.
Qed.

Lemma ltb_trans (a b c : float) :
  (a <? b)%float = true -> (b <? c)%float = true -> (a <? c)%float = true.
Proof.
  rewrite !ltb_spec. unfold SFltb.
  destruct (SFcompare (Prim2SF a) (Prim2SF b)) as [[]|] eqn:E1; try discriminate.
  destruct (SFcompare (Prim2SF b) (Prim2SF c)) as [[]|] eqn:E2; try discriminate.
  now rewrite (SFcompare_Lt_trans _ _ _ E1 E2).
Qed.

Lemma ltb_leb_trans (a b c : float) :
  (a <? b)%float = true -> (b <=? c)%float = true -> (a <? c)%float = true.
Proof.
  rewrite !ltb_spec, leb_spec. unfold SFltb, SFleb.
  destruct (SFcompare (Prim2SF a) (Prim2SF b)) as [[]|] eqn:E1; try discriminate.
  destruct (SFcompare (Prim2SF b) (Prim2SF c)) as [[]|] eqn:E2; try discriminate.
  - now rewrite (SFcompare_Lt_Eq _ _ _ E1 E2).
  - now rewrite (SFcompare_Lt_trans _ _ _ E1 E2).
Qed.

Lemma ltb_leb (a b : float) : (a <? b)%float = true -> (a <=? b)%float = true.
Proof.
  rewrite ltb_spec, leb_spec. unfold SFltb, SFleb.
  now destruct (SFcompare (Prim2SF a) (Prim2SF b)) as [[]|].
Qed.

Lemma ltb_not_leb (a b : float) : (a <? b)%float = true -> (b <=? a)%float = false.
Proof.
  rewrite ltb_spec, leb_spec. unfold SFltb, SFleb.
  destruct (SFcompare (Prim2SF a) (Prim2SF b)) as [[]|] eqn:E1; try discriminate.
  now rewrite (SFcompare_Lt_Gt _ _ E1).
Qed.

Lemma ltb_asym (a b : float) : (a <? b)%float = true -> (b <? a)%float = false.
Proof.
  intros H. destruct (b <? a)%float eqn:E; [|reflexivity].
  apply ltb_leb in E. now rewrite (ltb_not_leb _ _ H) in E.
Qed.

Lemma ltb_irrefl (a : float) : (a <? a)%float = false.
Proof.
  destruct (a <? a)%float eqn:E; [|reflexivity].
  now rewrite (ltb_asym _ _ E) in E.
Qed.

Lemma not_leb_not_ltb (a b : float) : (a <=? b)%float = false -> (a <? b)%float = false.
Proof.
  intros H. destruct (a <? b)%float eqn:E; [|reflexivity].
  apply ltb_leb in E. congruence.
Qed.

(** ** Sums, extrema and rounding *)

(** The additions of binary64 round: the order in which a loop adds
    the amounts shows in the result. *)
Lemma running_sum_order_matters :
  running_sum [0.1; 0.2; 0.3]%float = 0.6000000000000001%float
  /\ running_sum [0.3; 0.2; 0.1]%float = 0.6%float
  /\ (0.6000000000000001 =? 0.6)%float = false.
Proof. repeat split. Qed.

Lemma py_min_below (l : list float) (x : float) :
  py_min x l = x \/ (py_min x l <? x)%float = true.
Proof.
  revert x. induction l as [|y l IH]; intros x; [now left|].
  cbn [py_min]. destruct (y <? x)%float eqn:E.
  - right. destruct (IH y) as [-> | H]; [exact E | exact (ltb_trans _ _ _ H E)].
  - apply IH.
Qed.

(** [min] returns an element of the sequence that no element is
    smaller than. *)
Lemma py_min_spec (l : list float) (x : float) :
  In (py_min x l) (x :: l)
  /\ forall y, In y (x :: l) -> (y <? py_min x l)%float = false.
Proof.
  revert x. induction l as [|z l IH]; intros x.
  - simpl. split; [now left|]. intros y [<-|[]]. apply ltb_irrefl.
  - cbn [py_min]. destruct (z <? x)%float eqn:E.
    + destruct (IH z) as [I1 I2]. split.
      * right. exact I1.
      * intros y [<-|Hy]; [|now apply I2].
        destruct (x <? py_min z l)%float eqn:F; [|reflexivity].
        rewrite <- (I2 z (or_introl eq_refl)). symmetry.
        exact (ltb_trans _ _ _ E F).
    + destruct (IH x) as [I1 I2]. split.
      * destruct I1 as [I1|I1]; [left; exact I1 | right; right; exact I1].
      * intros y [<-|[<-|Hy]].
        -- apply I2. now left.
        -- destruct (py_min_below l x) as [-> | H]; [exact E|].
           destruct (z <? py_min x l)%float eqn:F; [|reflexivity].
           rewrite <- E. symmetry. exact (ltb_trans _ _ _ F H).
        -- apply I2. now right.
Qed.

Lemma py_max_above (l : list float) (x : float) :
  py_max x l = x \/ (x <? py_max x l)%float = true.
Proof.
  revert x. induction l as [|y l IH]; intros x; [now left|].
  cbn [py_max]. destruct (x <? y)%float eqn:E.
  - right. destruct (IH y) as [-> | H]; [exact E | exact (ltb_trans _ _ _ E H)].
  - apply IH.
Qed.

(** [max] returns an element of the sequence that no element is
    larger than. *)
Lemma py_max_spec (l : list float) (x : float) :
  In (py_max x l) (x :: l)
  /\ forall y, In y (x :: l) -> (py_max x l <? y)%float = false.
Proof.
  revert x. induction l as [|z l IH]; intros x.
  - simpl. split; [now left|]. intros y [<-|[]]. apply ltb_irrefl.
  - cbn [py_max]. destruct (x <? z)%float eqn:E.
    + destruct (IH z) as [I1 I2]. split.
      * right. exact I1.
      * intros y [<-|Hy]; [|now apply I2].
        destruct (py_max z l <? x)%float eqn:F; [|reflexivity].
        rewrite <- (I2 z (or_introl eq_refl)). symmetry.
        exact (ltb_trans _ _ _ F E).
    + destruct (IH x) as [I1 I2]. split.
      * destruct I1 as [I1|I1]; [left; exact I1 | right; right; exact I1].
      * intros y [<-|[<-|Hy]].
        -- apply I2. now left.
        -- destruct (py_max_above l x) as [-> | H]; [exact E|].
           destruct (py_max x l <? z)%float eqn:F; [|reflexivity].
           rewrite <- E. symmetry. exact (ltb_trans _ _ _ H F).
        -- apply I2. now right.
Qed.

Lemma round_half_even_close (x : Q) :
  (- (1 # 2) <= inject_Z (round_half_even x) - x <= 1 # 2)%Q.
Proof.
  destruct x as [n d]. unfold round_half_even. cbn [Qnum Qden].
  pose proof (Z.div_mod n (Z.pos d) ltac:(lia)) as Hdm.
  pose proof (Z.mod_pos_bound n (Z.pos d) ltac:(lia)) as Hb.
  set (q := (n / Z.pos d)%Z) in *. set (r := (n mod Z.pos d)%Z) in *.
  clearbody q r.
  assert (Hq : forall z, (inject_Z z - (n # d) == (z * Z.pos d - n) # d)%Q).
  { intros z. unfold Qeq, Qminus, Qplus, Qopp, inject_Z. simpl. ring. }
  destruct (2 * r ?= Z.pos d)%Z eqn:E.
  - apply Z.compare_eq in E.
    destruct (Z.even q); rewrite Hq; unfold Qle; simpl;
      rewrite <- ?Pos2Z.opp_pos; split; subst n; lia.
  - assert (E' : (2 * r < Z.pos d)%Z) by exact E.
    rewrite Hq; unfold Qle; simpl; rewrite <- ?Pos2Z.opp_pos; split; subst n; lia.
  - assert (E' : (Z.pos d < 2 * r)%Z) by (now apply Z.compare_gt_iff).
    rewrite Hq; unfold Qle; simpl; rewrite <- ?Pos2Z.opp_pos; split; subst n; lia.
Qed.

(** Below 2^46 [round(x, 2)] is, up to the sign of [x], the float
    quotient by 100 of an integer [n] of hundredths, [n / 100] being
    within 0.005 of the exact magnitude of [x]. *)
Lemma py_round2_hundredths (x : float) (s : bool) (m : positive) (e : Z) :
  Prim2SF x = S754_finite s m e ->
  (70368744177664 <=? abs x)%float = false ->
  exists n : Z,
    (Qabs (inject_Z n / 100 - magnitude m e) <= 1 # 200)%Q
    /\ py_round2 x
       = let r := match n with
                  | Z0 => 0%float
                  | _ => (float_of_Z n / 100)%float
                  end in
         if s then (- r)%float else r.
Proof.
  intros E1 E2. exists (round_half_even (magnitude m e * 100)). split.
  - pose proof (round_half_even_close (magnitude m e * 100)) as [H1 H2].
    set (n := inject_Z (round_half_even (magnitude m e * 100))) in *.
    set (y := magnitude m e) in *.
    apply Qabs_Qle_condition. split.
    + apply Qmult_le_r with (z := 100%Q); [reflexivity|]. field_simplify. lra.
    + apply Qmult_le_r with (z := 100%Q); [reflexivity|]. field_simplify. lra.
  - unfold py_round2. now rewrite E1, E2.
Qed.

(** What [round(x, 2)] gives on some floats: ties of the decimal
    reading that are no ties of the binary value, an exact tie, a
    negative number that rounds to zero, and the floats that round to
    themselves. *)
Lemma py_round2_examples :
  py_round2 125.22499999999999 = 125.22%float
  /\ py_round2 2.675 = 2.67%float
  /\ py_round2 0.125 = 0.12%float
  /\ py_round2 0.375 = 0.38%float
  /\ py_round2 (4 / 3) = 1.33%float
  /\ py_round2 (-0.001) = (-0)%float
  /\ py_round2 6200 = 6200%float
  /\ py_round2 1e16 = 1e16%float
  /\ py_round2 infinity = infinity
  /\ py_round2 nan = nan.
Proof. repeat split. Qed.

(** ** Grouping by category *)

Lemma get_lookup0 c (d : Dict.t float) :
  In c (Dict.keys d) -> Dict.get c d = Some (lookup0 c d).
Proof.
  intros H. unfold lookup0. destruct (Dict.get c d) eqn:E; [reflexivity|].
  apply DictFacts.get_None_keys in E. contradiction.
Qed.

Lemma add_transaction_keys acc t :
  Dict.keys (add_transaction acc t) = remember (Dict.keys acc) (Transaction.category t).
Proof.
  unfold add_transaction, remember.
  destruct (Dict.mem (Transaction.category t) acc) eqn:E; cbn [negb].
  - assert (HI : In (Transaction.category t) (Dict.keys acc))
      by now apply DictFacts.mem_true_iff.
    rewrite (proj2 (list_mem_In _ _) HI).
    rewrite (get_lookup0 _ _ HI). now apply DictFacts.keys_set_present.
  - assert (HI : ~ In (Transaction.category t) (Dict.keys acc)).
    { intros HI. apply DictFacts.mem_true_iff in HI. congruence. }
    rewrite (proj2 (list_mem_not_In _ _) HI).
    rewrite DictFacts.get_set_eq.
    rewrite DictFacts.keys_set_present by (apply DictFacts.In_keys_set; now left).
    now apply DictFacts.keys_set_absent.
Qed.

Lemma add_transaction_get acc t c :
  Dict.get c (add_transaction acc t) =
    if String.eqb c (Transaction.category t)
    then Some (lookup0 (Transaction.category t) acc + Transaction.amount t)%float
    else Dict.get c acc.
Proof.
  unfold add_transaction, lookup0.
  destruct (Dict.mem (Transaction.category t) acc) eqn:E; cbn [negb].
  - unfold Dict.mem in E.
    destruct (Dict.get (Transaction.category t) acc) as [v|] eqn:G; [|discriminate].
    destruct (String.eqb_spec c (Transaction.category t)) as [->|Hne].
    + apply DictFacts.get_set_eq.
    + now apply DictFacts.get_set_neq.
  - apply DictFacts.mem_false_iff in E. rewrite E, DictFacts.get_set_eq.
    destruct (String.eqb_spec c (Transaction.category t)) as [->|Hne].
    + apply DictFacts.get_set_eq.
    + now rewrite !DictFacts.get_set_neq.
Qed.

Lemma keys_fold_add_transaction transactions acc :
  Dict.keys (fold_left add_transaction transactions acc) =
    fold_left remember (map Transaction.category transactions) (Dict.keys acc).
Proof.
  revert acc. induction transactions as [|t l IH]; intros acc; simpl; [reflexivity|].
  now rewrite IH, add_transaction_keys.
Qed.

Lemma NoDup_remember seen c : NoDup seen -> NoDup (remember seen c).
Proof.
  intros H. unfold remember. destruct (list_mem c seen) eqn:E; [assumption|].
  apply list_mem_not_In in E.
  apply NoDup_app; [assumption | repeat constructor; intros [] |].
  intros x Hx [<-|[]]. contradiction.
Qed.

Lemma In_remember seen c x : In x (remember seen c) <-> In x seen \/ x = c.
Proof.
  unfold remember. destruct (list_mem c seen) eqn:E.
  - apply list_mem_In in E. split; [auto | intros [H| ->]; auto].
  - rewrite in_app_iff. simpl. intuition.
Qed.

Lemma NoDup_fold_remember l seen : NoDup seen -> NoDup (fold_left remember l seen).
Proof.
  revert seen. induction l as [|c l IH]; intros seen H; simpl; [assumption|].
  apply IH. now apply NoDup_remember.
Qed.

Lemma In_fold_remember l seen x :
  In x (fold_left remember l seen) <-> In x seen \/ In x l.
Proof.
  revert seen. induction l as [|c l IH]; intros seen; simpl.
  - intuition.
  - rewrite IH, In_remember. intuition.
Qed.

Lemma category_amounts_cons c t l :
  category_amounts c (t :: l) =
    if String.eqb (Transaction.category t) c
    then Transaction.amount t :: category_amounts c l
    else category_amounts c l.
Proof.
  unfold category_amounts. simpl.
  destruct (String.eqb (Transaction.category t) c); reflexivity.
Qed.

Lemma category_amounts_nil c transactions :
  category_amounts c transactions = [] <->
  ~ In c (map Transaction.category transactions).
Proof.
  induction transactions as [|t l IH]; [simpl; tauto|].
  rewrite category_amounts_cons. simpl.
  destruct (String.eqb_spec (Transaction.category t) c) as [E|N].
  - split; [discriminate | intros H; exfalso; apply H; now left].
  - rewrite IH. tauto.
Qed.

Lemma lookup0_add_transaction acc t c :
  lookup0 c (add_transaction acc t) =
    if String.eqb (Transaction.category t) c
    then (lookup0 c acc + Transaction.amount t)%float
    else lookup0 c acc.
Proof.
  unfold lookup0 at 1. rewrite add_transaction_get.
  rewrite (String.eqb_sym (Transaction.category t) c).
  destruct (String.eqb_spec c (Transaction.category t)) as [->|Hne]; reflexivity.
Qed.

(** The loop adds to what the mapping holds for a category the
    amounts of that category, one after another in transaction order;
    the transactions of other categories do not touch it. *)
Lemma lookup0_fold_add_transaction transactions acc c :
  lookup0 c (fold_left add_transaction transactions acc) =
    fold_left PrimFloat.add (category_amounts c transactions) (lookup0 c acc).
Proof.
  revert acc. induction transactions as [|t l IH]; intros acc; [reflexivity|].
  cbn [fold_left]. rewrite IH, lookup0_add_transaction, category_amounts_cons.
  destruct (String.eqb (Transaction.category t) c); reflexivity.
Qed.

(** What [group_by_category] holds: the categories in order of first
    appearance, each with its amounts added in transaction order. *)
Lemma group_by_category_keys transactions :
  Dict.keys (group_by_category transactions)
  = first_occurrences (map Transaction.category transactions).
Proof.
  unfold group_by_category. now rewrite keys_fold_add_transaction.
Qed.

Lemma group_by_category_NoDup transactions :
  NoDup (Dict.keys (group_by_category transactions)).
Proof.
  rewrite group_by_category_keys. apply NoDup_fold_remember. constructor.
Qed.

Lemma group_by_category_In transactions c :
  In c (Dict.keys (group_by_category transactions))
  <-> In c (map Transaction.category transactions).
Proof.
  rewrite group_by_category_keys. unfold first_occurrences.
  rewrite In_fold_remember. simpl. intuition.
Qed.

Lemma group_by_category_get transactions c :
  In c (map Transaction.category transactions) ->
  Dict.get c (group_by_category transactions)
  = Some (running_sum (category_amounts c transactions)).
Proof.
  intros H. apply group_by_category_In in H.
  rewrite (get_lookup0 _ _ H). f_equal.
  unfold group_by_category. now rewrite lookup0_fold_add_transaction.
Qed.

(** Two transaction lists that give a category the same amounts in
    the same order give it the same entry. *)
Lemma group_by_category_same_amounts l1 l2 c :
  category_amounts c l1 = category_amounts c l2 ->
  Dict.get c (group_by_category l1) = Dict.get c (group_by_category l2).
Proof.
  intros HA.
  destruct (in_dec string_dec c (map Transaction.category l1)) as [H1|H1].
  - assert (H2 : In c (map Transaction.category l2)).
    { destruct (in_dec string_dec c (map Transaction.category l2)) as [H2|H2];
        [exact H2|].
      apply category_amounts_nil in H2. rewrite H2 in HA.
      apply category_amounts_nil in HA. contradiction. }
    rewrite (group_by_category_get l1 c H1), (group_by_category_get l2 c H2).
    now rewrite HA.
  - assert (H2 : ~ In c (map Transaction.category l2)).
    { apply category_amounts_nil. rewrite <- HA. now apply category_amounts_nil. }
    rewrite <- group_by_category_In in H1, H2.
    apply DictFacts.get_None_keys in H1, H2. now rewrite H1, H2.
Qed.

Lemma group_by_category_length transactions :
  length (group_by_category transactions)
  = length (nodup string_dec (map Transaction.category transactions)).
Proof.
  rewrite <- DictFacts.length_keys. apply Permutation_length.
  apply NoDup_Permutation.
  - apply group_by_category_NoDup.
  - apply NoDup_nodup.
  - intros c. rewrite nodup_In. apply group_by_category_In.
Qed.

(** ** The top category *)

Lemma max_by_value_first (rest pre mid : list (string * float))
      (best : string * float) :
  (forall e, In e pre -> (snd best <=? snd e)%float = false) ->
  (forall e, In e mid -> (snd best <? snd e)%float = false) ->
  exists pre' post',
    (pre ++ best :: mid ++ rest)%list = (pre' ++ max_by_value best rest :: post')%list
    /\ (forall e, In e pre' -> (snd (max_by_value best rest) <=? snd e)%float = false)
    /\ (forall e, In e post' -> (snd (max_by_value best rest) <? snd e)%float = false).
Proof.
  revert pre mid best. induction rest as [|e rest IH]; intros pre mid best Hpre Hmid.
  - exists pre, mid. rewrite app_nil_r. simpl. auto.
  - cbn [max_by_value]. destruct (snd best <? snd e)%float eqn:E.
    + destruct (IH (pre ++ best :: mid)%list [] e) as [pre' [post' [Heq H]]].
      * intros x Hx. apply in_app_iff in Hx.
        destruct (snd e <=? snd x)%float eqn:F; [|reflexivity].
        pose proof (ltb_leb_trans _ _ _ E F) as G.
        destruct Hx as [Hx|[<-|Hx]].
        -- apply ltb_leb in G. rewrite (Hpre x Hx) in G. discriminate.
        -- rewrite ltb_irrefl in G. discriminate.
        -- rewrite (Hmid x Hx) in G. discriminate.
      * intros x [].
      * exists pre', post'. split; [|exact H].
        rewrite <- Heq. rewrite <- app_assoc. reflexivity.
    + destruct (IH pre (mid ++ [e])%list best) as [pre' [post' [Heq H]]]; auto.
      * intros x Hx. apply in_app_iff in Hx. destruct Hx as [Hx|[<-|[]]]; auto.
      * exists pre', post'. split; [|exact H].
        rewrite <- Heq. now rewrite <- app_assoc.
Qed.

(** The top category of a non-empty mapping is its first entry that
    no entry exceeds: the value of every entry before it is neither
    equal nor larger, the value of no entry after it is larger. *)
Lemma top_category_first_max (m : Dict.t float) :
  m <> [] ->
  exists pre v post,
    m = (pre ++ (top_category_of m, v) :: post)%list
    /\ (forall e, In e pre -> (v <=? snd e)%float = false)
    /\ (forall e, In e post -> (v <? snd e)%float = false).
Proof.
  destruct m as [|e rest]; [contradiction|]. intros _.
  destruct (max_by_value_first rest [] [] e) as [pre [post [Heq [H1 H2]]]].
  - intros x [].
  - intros x [].
  - exists pre, (snd (max_by_value e rest)), post.
    cbn [top_category_of]. rewrite <- surjective_pairing. auto.
Qed.

(** ** The datasets of a profile *)

Section Aggregation.

Variable now : nat -> string.
Variable profiles : Dict.t ClientProfile.t.

(** C3, as the code has it: for a known client aggregation returns
    normally and stores, under the pair's average key, the count and
    the total of the amounts, and for a non-empty list as average
    round(total / count, 2), the float quotient rounded to two
    decimals, not the quotient itself, a minimum that is an amount of
    the list with no amount smaller and a maximum that is an amount
    of the list with no amount larger; for an empty list average,
    minimum and maximum are 0. *)
Theorem average_bill_dataset
        (client_id company : string) (p : ClientProfile.t) (w : World) :
  Dict.get client_id profiles = Some p ->
  let transactions := ClientProfile.transactions p in
  let amounts := map Transaction.amount transactions in
  let count := length transactions in
  exists w' average mn mx generated_at,
    generate_aggregated_data now profiles client_id company w = (inr tt, w')
    /\ Dict.get (consent_key client_id company ++ "_average") (aggregated_data_db w')
       = Some (AggregatedData.mk company "average_bill"
                 (AverageMetrics average mn mx count (py_sum amounts)) 1 generated_at)
    /\ (transactions = [] -> average = 0%float /\ mn = 0%float /\ mx = 0%float)
    /\ (transactions <> [] ->
        average = py_round2 (py_sum amounts / float_of_Z (Z.of_nat count))
        /\ In mn amounts /\ (forall a, In a amounts -> (a <? mn)%float = false)
        /\ In mx amounts /\ (forall a, In a amounts -> (mx <? a)%float = false)).
Proof.
  intros Hp transactions amounts count.
  pose proof (get_average_stored now client_id company p (clock_reads w)
                                 (aggregated_data_db w)) as Hget.
  unfold average_record, average_metrics in Hget.
  fold transactions amounts count in Hget.
  eexists; eexists; eexists; eexists; eexists.
  split; [exact (generate_known now profiles client_id company p w Hp)|].
  cbn [aggregated_data_db]. split; [exact Hget|].
  split.
  - intros E. subst amounts. rewrite E. repeat split; reflexivity.
  - intros NE. subst amounts count.
    destruct transactions as [|t l] eqn:E; [contradiction|].
    split; [reflexivity|].
    cbn [map].
    destruct (py_min_spec (map Transaction.amount l) (Transaction.amount t))
      as [M1 M2].
    destruct (py_max_spec (map Transaction.amount l) (Transaction.amount t))
      as [X1 X2].
    auto.
Qed.

(** C4, as the code has it: for a known client aggregation stores,
    under the pair's category key, a mapping whose keys are the
    categories of the transactions in order of first appearance, each
    category mapped to its amounts added one after another from 0 in
    transaction order (so any transaction list that gives the category
    the same amounts in the same order gives it the same entry,
    however the other categories are interleaved), the number of
    distinct categories, the sum of all amounts, and as top category
    the first entry of the mapping whose value no entry exceeds. *)
Theorem category_spend_dataset
        (client_id company : string) (p : ClientProfile.t) (w : World) :
  Dict.get client_id profiles = Some p ->
  let transactions := ClientProfile.transactions p in
  let amounts := map Transaction.amount transactions in
  let categories := map Transaction.category transactions in
  exists w' m top n generated_at,
    generate_aggregated_data now profiles client_id company w = (inr tt, w')
    /\ Dict.get (consent_key client_id company ++ "_categories")
                (aggregated_data_db w')
       = Some (AggregatedData.mk company "category_spending"
                 (CategoryMetrics m top n (py_sum amounts)) 1 generated_at)
    /\ Dict.keys m = first_occurrences categories
    /\ NoDup (Dict.keys m)
    /\ (forall c, In c (Dict.keys m) <-> In c categories)
    /\ (forall c, In c categories ->
                  Dict.get c m = Some (running_sum (category_amounts c transactions)))
    /\ (forall others c,
          category_amounts c others = category_amounts c transactions ->
          Dict.get c (group_by_category others) = Dict.get c m)
    /\ (transactions <> [] ->
        exists pre v post,
          m = (pre ++ (top, v) :: post)%list
          /\ (forall e, In e pre -> (v <=? snd e)%float = false)
          /\ (forall e, In e post -> (v <? snd e)%float = false))
    /\ (transactions = [] -> top = "Нет данных")
    /\ n = length (nodup string_dec categories).
Proof.
  intros Hp transactions amounts categories.
  pose proof (get_categories_stored now client_id company p (clock_reads w)
                                    (aggregated_data_db w)) as Hget.
  unfold categories_record, category_metrics in Hget.
  fold transactions amounts in Hget.
  eexists; eexists; eexists; eexists; eexists.
  split; [exact (generate_known now profiles client_id company p w Hp)|].
  cbn [aggregated_data_db]. split; [exact Hget|].
  split; [apply group_by_category_keys|].
  split; [apply group_by_category_NoDup|].
  split; [intros c; apply group_by_category_In|].
  split; [intros c; apply group_by_category_get|].
  split.
  { intros others c HA. now apply group_by_category_same_amounts. }
  split.
  { intros NE. apply top_category_first_max. intros E.
    assert (HI : In (Transaction.category (hd (Transaction.mk "" 0 "" "" "") transactions))
                    (Dict.keys (group_by_category transactions))).
    { apply group_by_category_In. destruct transactions; [contradiction|].
      simpl. now left. }
    rewrite E in HI. destruct HI. }
  split; [intros E; now rewrite E|].
  apply group_by_category_length.
Qed.

End Aggregation.

(** ** The built-in clients *)

(** C9: the first built-in client has the amounts 2500, 5000, 12000,
    3500, 8000 in five distinct categories, and whenever it is
    aggregated the datasets stored give an average of 6200, a minimum
    of 2500, a maximum of 12000, a total of 31000 over 5 transactions
    and 5 categories. *)
Theorem client_1_aggregates (now : nat -> string) (company : string) (w : World) :
  exists p w' m top average ts_categories ts_average,
    Dict.get "client_1" client_profiles_db = Some p
    /\ map Transaction.amount (ClientProfile.transactions p)
       = [2500; 5000; 12000; 3500; 8000]%float
    /\ NoDup (map Transaction.category (ClientProfile.transactions p))
    /\ generate_aggregated_data now client_profiles_db "client_1" company w = (inr tt, w')
    /\ Dict.get (consent_key "client_1" company ++ "_average") (aggregated_data_db w')
       = Some (AggregatedData.mk company "average_bill"
                 (AverageMetrics average 2500 12000 5 31000) 1 ts_average)
    /\ average = 6200%float
    /\ Dict.get (consent_key "client_1" company ++ "_categories") (aggregated_data_db w')
       = Some (AggregatedData.mk company "category_spending"
                 (CategoryMetrics m top 5 31000) 1 ts_categories)
    /\ length m = 5.
Proof.
  eexists; eexists; eexists; eexists; eexists; eexists; eexists.
  split; [reflexivity|].
  split; [reflexivity|].
  split.
  { cbn. repeat constructor; cbn; intuition discriminate. }
  split; [apply generate_known; reflexivity|].
  cbn [aggregated_data_db].
  split; [rewrite get_average_stored; reflexivity|].
  split; [reflexivity|].
  split; [rewrite get_categories_stored; reflexivity|].
  reflexivity.
Qed.

(** ** Concrete runs *)

(** C1 at the built-in data: client_1 grants to Retail Analytics Pro
    and then revokes.  The revoke succeeds and empties the consent
    table, but the aggregate table is what it was, and the partner
    still reads the client's three datasets. *)
Theorem revoke_leaves_datasets_readable :
  exists resp w1 w2 d1 d2 d3,
    manage_consent fixed_clock client_profiles_db
      (ConsentRequest.mk "client_1" "Retail Analytics Pro"
         ["category_spending"; "average_bill"] true) initial_world
    = (inr resp, w1)
    /\ revoke_consent (consent_id resp) w1 = (inr "Согласие полностью отозвано", w2)
    /\ consents_db w2 = Dict.empty
    /\ aggregated_data_db w2 = aggregated_data_db w1
    /\ get_aggregated_data "Retail Analytics Pro" w2
       = (inr (CompanyData "Retail Analytics Pro" 3 [d1; d2; d3]), w2).
Proof.
  do 6 eexists. split; [lazy; reflexivity|].
  split; [lazy; reflexivity|]. split; [reflexivity|]. split; [reflexivity|].
  lazy; reflexivity.
Qed.

(** C2 fails for a company outside the partner list: the active upsert
    of client_1 for "Acme Corp" succeeds, and the read for "Acme Corp"
    is then refused instead of returning three datasets. *)
Lemma unlisted_company_upsert_then_read :
  exists resp w',
    Dict.mem "client_1" client_profiles_db = true
    /\ manage_consent fixed_clock client_profiles_db
         (ConsentRequest.mk "client_1" "Acme Corp" ["average_bill"] true) initial_world
       = (inr resp, w')
    /\ get_aggregated_data "Acme Corp" w'
       = (inl (HTTPException 400 "Компания не найдена"), w')
    /\ ~ (exists r w'', get_aggregated_data "Acme Corp" w' = (inr r, w'')
                        /\ length (response_data r) = 3).
Proof.
  do 2 eexists. split; [reflexivity|]. split; [lazy; reflexivity|].
  split; [reflexivity|]. intros [r [w'' [E _]]]. discriminate E.
Qed.

Lemma active_upsert_then_read_witness :
  exists p,
    Dict.get "client_2" client_profiles_db = Some p
    /\ In "FinTech Insights" COMPANIES
    /\ valid_data_types ["geography"; "average_bill"]
    /\ consents_db initial_world = Dict.empty
    /\ aggregated_data_db initial_world = Dict.empty
    /\ exists resp w' d1 d2 d3,
         manage_consent fixed_clock client_profiles_db
           (ConsentRequest.mk "client_2" "FinTech Insights"
              ["geography"; "average_bill"] true) initial_world = (inr resp, w')
         /\ get_aggregated_data "FinTech Insights" w'
            = (inr (CompanyData "FinTech Insights" 3 [d1; d2; d3]), w')
         /\ reported_total d1
            = Some (py_sum (map Transaction.amount (ClientProfile.transactions p)))
         /\ reported_total d2
            = Some (py_sum (map Transaction.amount (ClientProfile.transactions p)))
         /\ reported_total d3 = None.
Proof.
  eexists. split; [reflexivity|]. split; [simpl; auto|].
  split; [permitted|]. split; [reflexivity|]. split; [reflexivity|].
  apply (active_upsert_then_read fixed_clock client_profiles_db
           "client_2" "FinTech Insights" ["geography"; "average_bill"]);
    [reflexivity | simpl; auto | permitted | reflexivity | reflexivity].
Defined.

(** C3 fails where the quotient has more than two decimals: for
    amounts 1, 1 and 2 the total is 4 over 3 transactions, the float
    quotient 1.3333333333333333, and the average stored is 1.33. *)
Lemma average_bill_is_rounded :
  exists w' mn mx ts,
    generate_aggregated_data fixed_clock thirds_table "client_9" "FinTech Insights"
                             initial_world = (inr tt, w')
    /\ Dict.get "client_9_FinTech Insights_average" (aggregated_data_db w')
       = Some (AggregatedData.mk "FinTech Insights" "average_bill"
                 (AverageMetrics 1.33 mn mx 3 4) 1 ts)
    /\ (4 / float_of_Z (Z.of_nat 3))%float = 1.3333333333333333%float
    /\ (1.33 =? 4 / float_of_Z (Z.of_nat 3))%float = false.
Proof.
  do 4 eexists. split; [lazy; reflexivity|]. split; [lazy; reflexivity|].
  split; reflexivity.
Qed.

Lemma average_bill_dataset_witness :
  exists p,
    Dict.get "client_9" cents_table = Some p
    /\ exists w' average mn mx generated_at,
         generate_aggregated_data fixed_clock cents_table "client_9" "FinTech Insights"
                                  initial_world = (inr tt, w')
         /\ Dict.get (consent_key "client_9" "FinTech Insights" ++ "_average")
                     (aggregated_data_db w')
            = Some (AggregatedData.mk "FinTech Insights" "average_bill"
                      (AverageMetrics average mn mx
                         (length (ClientProfile.transactions p))
                         (py_sum (map Transaction.amount (ClientProfile.transactions p))))
                      1 generated_at)
         /\ (ClientProfile.transactions p = [] ->
             average = 0%float /\ mn = 0%float /\ mx = 0%float)
         /\ (ClientProfile.transactions p <> [] ->
             average
             = py_round2 (py_sum (map Transaction.amount (ClientProfile.transactions p))
                          / float_of_Z (Z.of_nat (length (ClientProfile.transactions p))))
             /\ In mn (map Transaction.amount (ClientProfile.transactions p))
             /\ (forall a, In a (map Transaction.amount (ClientProfile.transactions p)) ->
                           (a <? mn)%float = false)
             /\ In mx (map Transaction.amount (ClientProfile.transactions p))
             /\ (forall a, In a (map Transaction.amount (ClientProfile.transactions p)) ->
                           (mx <? a)%float = false)).
Proof.
  eexists. split; [reflexivity|].
  apply (average_bill_dataset fixed_clock cents_table "client_9" "FinTech Insights").
  reflexivity.
Defined.

(** A client without transactions is aggregated without error: the
    average dataset holds 0 everywhere, the category dataset an empty
    mapping and the placeholder. *)
Lemma aggregates_of_no_transactions :
  exists w' ts_categories ts_average,
    generate_aggregated_data fixed_clock idle_table "client_9" "FinTech Insights"
                             initial_world = (inr tt, w')
    /\ Dict.get "client_9_FinTech Insights_average" (aggregated_data_db w')
       = Some (AggregatedData.mk "FinTech Insights" "average_bill"
                 (AverageMetrics 0 0 0 0 0) 1 ts_average)
    /\ Dict.get "client_9_FinTech Insights_categories" (aggregated_data_db w')
       = Some (AggregatedData.mk "FinTech Insights" "category_spending"
                 (CategoryMetrics [] "Нет данных" 0 0) 1 ts_categories).
Proof.
  do 3 eexists. split; [lazy; reflexivity|]. split; lazy; reflexivity.
Qed.

(** The average dataset of two amounts in cents: the total is
    250.45, the float quotient by 2 is 125.22499999999999, and the
    average stored is 125.22. *)
Lemma average_bill_of_cents :
  exists w' ts,
    generate_aggregated_data fixed_clock cents_table "client_9" "FinTech Insights"
                             initial_world = (inr tt, w')
    /\ Dict.get "client_9_FinTech Insights_average" (aggregated_data_db w')
       = Some (AggregatedData.mk "FinTech Insights" "average_bill"
                 (AverageMetrics 125.22 117.04 133.41 2 250.45) 1 ts)
    /\ (250.45 / 2)%float = 125.22499999999999%float.
Proof.
  do 2 eexists. split; [lazy; reflexivity|]. split; [lazy; reflexivity|].
  reflexivity.
Qed.

(** C4 fails where the additions round: the same three amounts of one
    category give 0.6000000000000001 in one order and 0.6 in the
    opposite one. *)
Lemma category_sum_depends_on_order :
  Permutation tenths (rev tenths)
  /\ (exists w' d,
         generate_aggregated_data fixed_clock tenths_table "client_9"
                                  "FinTech Insights" initial_world = (inr tt, w')
         /\ Dict.get "client_9_FinTech Insights_categories" (aggregated_data_db w')
            = Some d
         /\ spending_by_category_of d = [("Кафе", 0.6000000000000001%float)])
  /\ (exists w' d,
         generate_aggregated_data fixed_clock tenths_reversed_table "client_9"
                                  "FinTech Insights" initial_world = (inr tt, w')
         /\ Dict.get "client_9_FinTech Insights_categories" (aggregated_data_db w')
            = Some d
         /\ spending_by_category_of d = [("Кафе", 0.6%float)])
  /\ (0.6000000000000001 =? 0.6)%float = false.
Proof.
  split; [apply Permutation_rev|].
  split; [do 2 eexists; split; [lazy; reflexivity|]; split; lazy; reflexivity|].
  split; [do 2 eexists; split; [lazy; reflexivity|]; split; lazy; reflexivity|].
  reflexivity.
Qed.

(** The top category follows the rounded sums: with the amounts 0.3,
    0.2, 0.1 under one category and then 0.1, 0.2, 0.3 under another,
    the second holds 0.6000000000000001 against 0.6 and is the top
    category. *)
Lemma top_category_of_rounded_sums :
  exists w' ts,
    generate_aggregated_data fixed_clock mirrored_table "client_9" "FinTech Insights"
                             initial_world = (inr tt, w')
    /\ Dict.get "client_9_FinTech Insights_categories" (aggregated_data_db w')
       = Some (AggregatedData.mk "FinTech Insights" "category_spending"
                 (CategoryMetrics
                    [("Кафе", 0.6%float); ("Транспорт", 0.6000000000000001%float)]
                    "Транспорт" 2
                    (py_sum [0.3; 0.2; 0.1; 0.1; 0.2; 0.3]%float)) 1 ts).
Proof.
  do 2 eexists. split; lazy; reflexivity.
Qed.

Lemma category_spend_dataset_witness :
  exists p,
    Dict.get "client_3" client_profiles_db = Some p
    /\ exists w' m top n generated_at,
         generate_aggregated_data fixed_clock client_profiles_db "client_3"
                                  "Market Research Co" initial_world = (inr tt, w')
         /\ Dict.get (consent_key "client_3" "Market Research Co" ++ "_categories")
                     (aggregated_data_db w')
            = Some (AggregatedData.mk "Market Research Co" "category_spending"
                      (CategoryMetrics m top n
                         (py_sum (map Transaction.amount (ClientProfile.transactions p))))
                      1 generated_at)
         /\ Dict.keys m
            = first_occurrences (map Transaction.category (ClientProfile.transactions p))
         /\ NoDup (Dict.keys m)
         /\ (forall c, In c (Dict.keys m)
                       <-> In c (map Transaction.category (ClientProfile.transactions p)))
         /\ (forall c, In c (map Transaction.category (ClientProfile.transactions p)) ->
                       Dict.get c m
                       = Some (running_sum
                                 (category_amounts c (ClientProfile.transactions p))))
         /\ (forall others c,
               category_amounts c others
               = category_amounts c (ClientProfile.transactions p) ->
               Dict.get c (group_by_category others) = Dict.get c m)
         /\ (ClientProfile.transactions p <> [] ->
             exists pre v post,
               m = (pre ++ (top, v) :: post)%list
               /\ (forall e, In e pre -> (v <=? snd e)%float = false)
               /\ (forall e, In e post -> (v <? snd e)%float = false))
         /\ (ClientProfile.transactions p = [] -> top = "Нет данных")
         /\ n = length (nodup string_dec
                          (map Transaction.category (ClientProfile.transactions p))).
Proof.
  eexists. split; [reflexivity|].
  apply (category_spend_dataset fixed_clock client_profiles_db "client_3"
                                "Market Research Co").
  reflexivity.
Defined.

(** C5 fails where both checks would reject: for an unknown client
    with a data type outside the permitted list the upsert answers
    404, not 400. *)
Lemma unknown_client_with_invalid_type :
  (exists dt, In dt ["bogus"] /\ ~ In dt AVAILABLE_DATA_TYPES)
  /\ manage_consent fixed_clock client_profiles_db
       (ConsentRequest.mk "client_9" "FinTech Insights" ["bogus"] true) initial_world
     = (inl (HTTPException 404 "Клиент не найден"), initial_world)
  /\ ~ (exists d w',
          manage_consent fixed_clock client_profiles_db
            (ConsentRequest.mk "client_9" "FinTech Insights" ["bogus"] true) initial_world
          = (inl (HTTPException 400 d), w')).
Proof.
  split; [|split].
  - exists "bogus". split; [now left|]. simpl. intuition discriminate.
  - reflexivity.
  - intros [d [w' E]]. discriminate E.
Qed.

Lemma upsert_twice_replaces_witness :
  exists p,
    Dict.get "client_1" client_profiles_db = Some p
    /\ valid_data_types ["category_spending"; "average_bill"; "age_group_stats"]
    /\ valid_data_types ["geography"]
    /\ wf_world initial_world
    /\ exists r1 w1 r2 w2,
         manage_consent fixed_clock client_profiles_db
           (ConsentRequest.mk "client_1" "Retail Analytics Pro"
              ["category_spending"; "average_bill"; "age_group_stats"] true)
           initial_world = (inr r1, w1)
         /\ manage_consent fixed_clock client_profiles_db
              (ConsentRequest.mk "client_1" "Retail Analytics Pro" ["geography"] true) w1
            = (inr r2, w2)
         /\ filter (granted_to "client_1" "Retail Analytics Pro")
                   (Dict.values (consents_db w2))
            = [ConsentRequest.mk "client_1" "Retail Analytics Pro" ["geography"] true]
         /\ Dict.count (consent_key "client_1" "Retail Analytics Pro") (consents_db w2) = 1
         /\ (forall s, In s dataset_suffixes ->
                       Dict.count (consent_key "client_1" "Retail Analytics Pro" ++ s)
                                  (aggregated_data_db w2) = 1)
         /\ length (aggregated_data_db w2) = length (aggregated_data_db w1)
         /\ (consents_db initial_world = Dict.empty ->
             aggregated_data_db initial_world = Dict.empty ->
             length (consents_db w2) = 1 /\ length (aggregated_data_db w2) = 3).
Proof.
  eexists. split; [reflexivity|]. split; [permitted|]. split; [permitted|].
  split; [exact wf_initial_world|].
  eapply (upsert_twice_replaces fixed_clock client_profiles_db
           "client_1" "Retail Analytics Pro"
           ["category_spending"; "average_bill"; "age_group_stats"] ["geography"]);
    [reflexivity | permitted | permitted | exact wf_initial_world].
Defined.

Lemma inactive_upsert_keeps_aggregates_witness :
  exists p w,
    Dict.get "client_2" client_profiles_db = Some p
    /\ valid_data_types ["geography"]
    /\ length (aggregated_data_db w) = 3
    /\ exists resp w',
         manage_consent fixed_clock client_profiles_db
           (ConsentRequest.mk "client_2" "FinTech Insights" ["geography"] false) w
         = (inr resp, w')
         /\ Dict.get (consent_key "client_2" "FinTech Insights") (consents_db w')
            = Some (ConsentRequest.mk "client_2" "FinTech Insights" ["geography"] false)
         /\ aggregated_data_db w' = aggregated_data_db w.
Proof.
  eexists.
  exists (snd (manage_consent fixed_clock client_profiles_db
                 (ConsentRequest.mk "client_2" "FinTech Insights" ["average_bill"] true)
                 initial_world)).
  split; [reflexivity|]. split; [permitted|]. split; [reflexivity|].
  refine (inactive_upsert_keeps_aggregates fixed_clock client_profiles_db
            "client_2" "FinTech Insights" ["geography"] _ _ _ _);
    [reflexivity | permitted].
Defined.

Lemma upsert_ignores_partner_list_witness :
  exists p,
    Dict.get "client_3" client_profiles_db = Some p
    /\ valid_data_types ["average_bill"]
    /\ ~ In "Acme Corp" COMPANIES
    /\ exists resp w',
         manage_consent fixed_clock client_profiles_db
           (ConsentRequest.mk "client_3" "Acme Corp" ["average_bill"] true) initial_world
         = (inr resp, w')
         /\ (true = true ->
             forall s, In s dataset_suffixes ->
               exists d, Dict.get (consent_key "client_3" "Acme Corp" ++ s)
                                  (aggregated_data_db w') = Some d
                         /\ AggregatedData.company d = "Acme Corp")
         /\ (forall w1, get_aggregated_data "Acme Corp" w1
                        = (inl (HTTPException 400 "Компания не найдена"), w1))
         /\ (forall asked w1 resp1 w2,
               get_aggregated_data asked w1 = (inr resp1, w2) ->
               forall d, In d (response_data resp1) ->
                         AggregatedData.company d <> "Acme Corp").
Proof.
  assert (H : ~ In "Acme Corp" COMPANIES) by (simpl; intuition discriminate).
  eexists. split; [reflexivity|]. split; [permitted|]. split; [exact H|].
  eapply (upsert_ignores_partner_list fixed_clock client_profiles_db
           "client_3" "Acme Corp" ["average_bill"] true);
    [reflexivity | permitted | exact H].
Defined.

(** * Further properties of the endpoints *)

(** ** Listings *)

Lemma get_client_consents_run client_id w :
  get_client_consents client_id w =
    (inr (map (fun e => summary_of (fst e) (snd e))
              (filter (fun e => String.eqb (ConsentRequest.client_id (snd e)) client_id)
                      (consents_db w))), w).
Proof. reflexivity. Qed.

Lemma In_client_consents client_id (d : Dict.t ConsentRequest.t) (e : ConsentSummary) :
  In e (map (fun e => summary_of (fst e) (snd e))
            (filter (fun e => String.eqb (ConsentRequest.client_id (snd e)) client_id) d))
  <-> exists k c, In (k, c) d
                  /\ ConsentRequest.client_id c = client_id
                  /\ e = summary_of k c.
Proof.
  rewrite in_map_iff. split.
  - intros [[k c] [<- HI]]. apply filter_In in HI. destruct HI as [HI Ht].
    apply String.eqb_eq in Ht. exists k, c. auto.
  - intros [k [c [HI [Hc ->]]]]. exists (k, c). split; [reflexivity|].
    apply filter_In. split; [assumption|]. now apply String.eqb_eq.
Qed.

(** The ids GET /clients lists are exactly the ids GET /client/{id}
    resolves: a listed id returns the profile stored under it, any
    other id is answered 404, and neither endpoint changes the
    state. *)
Theorem listed_clients_resolve (profiles : Dict.t ClientProfile.t)
        (client_id : string) (w : World) :
  get_available_clients profiles w = (inr (Dict.keys profiles), w)
  /\ (In client_id (Dict.keys profiles) <->
      exists p, get_client_profile profiles client_id w = (inr p, w)
                /\ Dict.get client_id profiles = Some p)
  /\ (~ In client_id (Dict.keys profiles) <->
      get_client_profile profiles client_id w
      = (inl (HTTPException 404 "Клиент не найден"), w)).
Proof.
  split; [reflexivity|]. unfold get_client_profile, Dict.mem.
  destruct (Dict.get client_id profiles) as [p|] eqn:E; cbn [negb].
  - assert (HI : In client_id (Dict.keys profiles)).
    { apply DictFacts.mem_true_iff. unfold Dict.mem. now rewrite E. }
    split.
    + split; [intros _; exists p; auto | intros _; exact HI].
    + split; [intros H; contradiction | discriminate].
  - apply DictFacts.get_None_keys in E. split.
    + split; [intros H; contradiction | intros [p [H _]]; discriminate H].
    + split; [reflexivity | intros _; exact E].
Qed.

Section Listing.

Variable now : nat -> string.
Variable profiles : Dict.t ClientProfile.t.

(** After a successful upsert, in a well-formed state, the client's
    consent list holds the entry of the grant just stored (its key,
    company, data types and flag, no update time) and no other entry
    for that company. *)
Theorem upsert_then_list
        (client_id company : string) (data_types : list string) (is_active : bool)
        (p : ClientProfile.t) (w : World) :
  Dict.get client_id profiles = Some p ->
  valid_data_types data_types ->
  wf_world w ->
  let req := ConsentRequest.mk client_id company data_types is_active in
  let entry : ConsentSummary :=
    (consent_key client_id company, company, data_types, is_active, None) in
  exists resp w' entries,
    manage_consent now profiles req w = (inr resp, w')
    /\ get_client_consents client_id w' = (inr entries, w')
    /\ In entry entries
    /\ forall e, In e entries -> summary_company e = company -> e = entry.
Proof.
  intros Hp Hv Hwf req entry.
  pose proof (wf_after_upsert now profiles req w Hwf) as [ND _ Hkeyed].
  pose proof (consents_after_upsert now profiles req w) as Hc.
  cbn [ConsentRequest.client_id ConsentRequest.company req] in Hc.
  do 3 eexists.
  split; [exact (manage_consent_success now profiles req w p Hp Hv)|].
  split; [apply get_client_consents_run|]. split.
  - apply In_client_consents. exists (consent_key client_id company), req.
    split; [|split; reflexivity].
    apply DictFacts.get_Some_In. rewrite Hc. apply DictFacts.get_set_eq.
  - intros e He Hcomp. apply In_client_consents in He.
    destruct He as [k [c [HI [Hcl ->]]]].
    cbn in Hcomp.
    assert (Hk : k = consent_key client_id company).
    { rewrite (Hkeyed k c HI). congruence. }
    subst k.
    assert (Hreq : c = req).
    { apply (DictFacts.In_get _ _ _ ND) in HI. rewrite Hc in HI.
      rewrite DictFacts.get_set_eq in HI. congruence. }
    now subst c.
Qed.

End Listing.

(** ** Revoking, continued *)

Lemma In_del_iff {V} (k k' : string) (v : V) (d : Dict.t V) :
  NoDup (Dict.keys d) ->
  (In (k', v) (Dict.del k d) <-> In (k', v) d /\ k' <> k).
Proof.
  induction d as [|[k0 v0] d IH]; simpl; intros ND; [tauto|].
  inversion ND as [|? ? Hnin ND']; subst.
  destruct (String.eqb_spec k k0) as [->|Hk].
  - split.
    + intros HI. split; [now right|]. intros ->. apply Hnin.
      change (In (fst (k0, v)) (map fst d)). now apply in_map.
    + intros [[E|HI] Hne]; [inversion E; congruence | assumption].
  - simpl. rewrite (IH ND'). split.
    + intros [E|[HI Hne]]; [inversion E; subst; auto | auto].
    + intros [[E|HI] Hne]; auto.
Qed.

Lemma del_set_absent {V} (k : string) (v : V) (d : Dict.t V) :
  ~ In k (Dict.keys d) -> Dict.del k (Dict.set k v d) = d.
Proof.
  induction d as [|[k0 v0] d IH]; simpl; intros HI.
  - now rewrite String.eqb_refl.
  - destruct (String.eqb_spec k k0) as [->|Hk].
    + exfalso. apply HI. now left.
    + simpl. destruct (String.eqb_spec k k0); [contradiction|].
      f_equal. apply IH. intros H. apply HI. now right.
Qed.

(** Every consent id the list endpoint shows can be revoked: in a
    well-formed state whose aggregate keys carry dataset suffixes the
    revoke succeeds, afterwards every client's list is its former
    list without the entries of that id, and the aggregate table is
    the same. *)
Theorem listed_consent_revocable
        (client_id : string) (e : ConsentSummary) (entries : list ConsentSummary)
        (w : World) :
  wf_world w ->
  aggregate_keyed w ->
  get_client_consents client_id w = (inr entries, w) ->
  In e entries ->
  exists w',
    revoke_consent (summary_consent_id e) w = (inr "Согласие полностью отозвано", w')
    /\ aggregated_data_db w' = aggregated_data_db w
    /\ forall other before after,
         get_client_consents other w = (inr before, w) ->
         get_client_consents other w' = (inr after, w') ->
         forall e', In e' after <->
                    In e' before /\ summary_consent_id e' <> summary_consent_id e.
Proof.
  intros [ND _ _] Hk Hlist He.
  rewrite get_client_consents_run in Hlist. inversion Hlist; subst entries. clear Hlist.
  apply In_client_consents in He. destruct He as [k [c [HI [_ ->]]]].
  cbn [summary_consent_id summary_of fst].
  assert (Hm : Dict.mem k (consents_db w) = true).
  { apply DictFacts.mem_true_iff. change (In (fst (k, c)) (map fst (consents_db w))).
    now apply in_map. }
  eexists. split; [exact (revoke_keeps_aggregate_table k w Hk Hm)|].
  split; [reflexivity|].
  intros other before after Hb Ha e'.
  rewrite get_client_consents_run in Hb, Ha.
  inversion Hb; subst before. inversion Ha; subst after. clear Hb Ha.
  cbn [consents_db]. rewrite !In_client_consents. split.
  - intros [k' [c' [HI' [Hc' ->]]]]. apply In_del_iff in HI'; [|assumption].
    destruct HI' as [HI' Hne]. split; [exists k', c'; auto | exact Hne].
  - intros [[k' [c' [HI' [Hc' ->]]]] Hne]. exists k', c'.
    split; [|auto]. apply In_del_iff; auto.
Qed.

(** Revoking is not idempotent: in a well-formed state, once a revoke
    has succeeded the same revoke is answered 404 and changes
    nothing. *)
Theorem revoke_twice_not_found (consent_id msg : string) (w w' : World) :
  wf_world w ->
  revoke_consent consent_id w = (inr msg, w') ->
  revoke_consent consent_id w' = (inl (HTTPException 404 "Согласие не найдено"), w').
Proof.
  intros [ND _ _]. rewrite !revoke_consent_run.
  destruct (Dict.mem consent_id (consents_db w)); [|discriminate].
  intros E. inversion E; subst. cbn [consents_db].
  assert (Hm : Dict.mem consent_id (Dict.del consent_id (consents_db w)) = false).
  { apply DictFacts.mem_false_iff. now apply DictFacts.get_del_eq. }
  now rewrite Hm.
Qed.

Section UndoUpsert.

Variable now : nat -> string.
Variable profiles : Dict.t ClientProfile.t.

(** Granting and then revoking with the id the upsert returned puts
    the consent table back exactly as it was, when the pair had no
    grant before. *)
Theorem upsert_then_revoke_restores_consents
        (client_id company : string) (data_types : list string) (is_active : bool)
        (p : ClientProfile.t) (w : World) :
  Dict.get client_id profiles = Some p ->
  valid_data_types data_types ->
  Dict.mem (consent_key client_id company) (consents_db w) = false ->
  exists resp w1 w2,
    manage_consent now profiles
      (ConsentRequest.mk client_id company data_types is_active) w = (inr resp, w1)
    /\ revoke_consent (consent_id resp) w1 = (inr "Согласие полностью отозвано", w2)
    /\ consents_db w2 = consents_db w.
Proof.
  intros Hp Hv Hm.
  set (req := ConsentRequest.mk client_id company data_types is_active).
  do 3 eexists.
  split; [exact (manage_consent_success now profiles req w p Hp Hv)|].
  cbn [consent_id ConsentRequest.client_id ConsentRequest.company req].
  rewrite revoke_consent_run, consents_after_upsert.
  cbn [ConsentRequest.client_id ConsentRequest.company req].
  assert (Hm' : Dict.mem (consent_key client_id company)
                  (Dict.set (consent_key client_id company) req (consents_db w)) = true).
  { unfold Dict.mem. now rewrite DictFacts.get_set_eq. }
  rewrite Hm'. split; [reflexivity|]. cbn [consents_db].
  apply del_set_absent. intros HI. apply DictFacts.mem_true_iff in HI. congruence.
Qed.

End UndoUpsert.

(** ** The key format *)

Lemma sapp_nil_r (s : string) : s ++ "" = s.
Proof. induction s as [|c s IH]; simpl; [reflexivity | now rewrite IH]. Qed.

Lemma sapp_assoc (a b c : string) : (a ++ b) ++ c = a ++ (b ++ c).
Proof. induction a as [|x a IH]; simpl; [reflexivity | now rewrite IH]. Qed.

Lemma srev_append (a b : string) : srev (a ++ b) = srev b ++ srev a.
Proof.
  induction a as [|c a IH]; simpl.
  - now rewrite sapp_nil_r.
  - now rewrite IH, sapp_assoc.
Qed.

Lemma srev_involutive (s : string) : srev (srev s) = s.
Proof.
  induction s as [|c s IH]; simpl; [reflexivity|].
  rewrite srev_append, IH. reflexivity.
Qed.

Lemma append_inj_r (a b s : string) : a ++ s = b ++ s -> a = b.
Proof.
  intros H. apply (f_equal srev) in H. rewrite !srev_append in H.
  apply append_inj_l in H. apply (f_equal srev) in H.
  now rewrite !srev_involutive in H.
Qed.

Lemma append_inj_length (a1 a2 b1 b2 : string) :
  String.length a1 = String.length a2 ->
  a1 ++ b1 = a2 ++ b2 -> a1 = a2 /\ b1 = b2.
Proof.
  revert a2. induction a1 as [|c a1 IH]; intros [|c2 a2]; simpl; intros HL H;
    try discriminate.
  - auto.
  - inversion H; subst. destruct (IH a2) as [-> ->]; auto.
Qed.

Lemma length_sapp (a b : string) :
  String.length (a ++ b) = String.length a + String.length b.
Proof. induction a as [|c a IH]; simpl; [reflexivity | now rewrite IH]. Qed.

(** A dataset key determines its data key and its suffix. *)
Lemma dataset_key_injective (k1 k2 s1 s2 : string) :
  In s1 dataset_suffixes -> In s2 dataset_suffixes ->
  k1 ++ s1 = k2 ++ s2 -> k1 = k2 /\ s1 = s2.
Proof.
  intros H1 H2 E.
  assert (Hs : s1 = s2).
  { apply (f_equal srev) in E. rewrite !srev_append in E.
    destruct H1 as [<-|[<-|[<-|[]]]]; destruct H2 as [<-|[<-|[<-|[]]]];
      try reflexivity; cbn in E; congruence. }
  subst s2. split; [|reflexivity]. now apply append_inj_r in E.
Qed.

(** For client ids of one length, as the built-in ones are, distinct
    (client, company) pairs never share a consent key. *)
Theorem consent_key_injective_same_length (c1 c2 company1 company2 : string) :
  String.length c1 = String.length c2 ->
  consent_key c1 company1 = consent_key c2 company2 ->
  c1 = c2 /\ company1 = company2.
Proof.
  intros HL E. unfold consent_key in E.
  destruct (append_inj_length _ _ _ _ HL E) as [-> E'].
  split; [reflexivity|]. now inversion E'.
Qed.

Section Frame.

Variable now : nat -> string.
Variable profiles : Dict.t ClientProfile.t.

(** A successful upsert touches only its own pair: the grant under
    any other key, and the dataset under any other data key followed
    by a dataset suffix, are what they were. *)
Theorem upsert_frame
        (client_id company : string) (data_types : list string) (is_active : bool)
        (p : ClientProfile.t) (w : World) :
  Dict.get client_id profiles = Some p ->
  valid_data_types data_types ->
  exists resp w',
    manage_consent now profiles
      (ConsentRequest.mk client_id company data_types is_active) w = (inr resp, w')
    /\ (forall k, k <> consent_key client_id company ->
                  Dict.get k (consents_db w') = Dict.get k (consents_db w))
    /\ (forall k s, In s dataset_suffixes -> k <> consent_key client_id company ->
                    Dict.get (k ++ s) (aggregated_data_db w')
                    = Dict.get (k ++ s) (aggregated_data_db w)).
Proof.
  intros Hp Hv.
  set (req := ConsentRequest.mk client_id company data_types is_active).
  do 2 eexists.
  split; [exact (manage_consent_success now profiles req w p Hp Hv)|].
  split.
  - intros k Hk. rewrite consents_after_upsert.
    now apply DictFacts.get_set_neq.
  - intros k s Hs Hk. destruct is_active.
    + rewrite (after_upsert_active now profiles req w p Hp eq_refl).
      cbn [aggregated_data_db ConsentRequest.client_id ConsentRequest.company req].
      unfold store_aggregates.
      rewrite !DictFacts.get_set_neq; [reflexivity | | |];
        intros E; apply dataset_key_injective in E; simpl; auto; now destruct E.
    + now rewrite (after_upsert_inactive now profiles req w eq_refl).
Qed.

(** The key is a plain concatenation, so a pair whose client id
    continues into the other's company has the same key: the second
    upsert replaces the first client's grant, which disappears from
    that client's consent list. *)
Theorem delimiter_collision_overwrites
        (c x y : string) (data_types1 data_types2 : list string)
        (is_active1 is_active2 : bool) (p1 p2 : ClientProfile.t) (w : World) :
  Dict.get c profiles = Some p1 ->
  Dict.get (c ++ "_" ++ x) profiles = Some p2 ->
  valid_data_types data_types1 ->
  valid_data_types data_types2 ->
  wf_world w ->
  let req1 := ConsentRequest.mk c (x ++ "_" ++ y) data_types1 is_active1 in
  let req2 := ConsentRequest.mk (c ++ "_" ++ x) y data_types2 is_active2 in
  exists r1 w1 r2 w2 entries,
    manage_consent now profiles req1 w = (inr r1, w1)
    /\ manage_consent now profiles req2 w1 = (inr r2, w2)
    /\ consent_id r1 = consent_id r2
    /\ Dict.get (consent_id r1) (consents_db w2) = Some req2
    /\ get_client_consents c w2 = (inr entries, w2)
    /\ forall e, In e entries -> summary_consent_id e <> consent_id r1.
Proof.
  intros Hp1 Hp2 Hv1 Hv2 Hwf req1 req2.
  assert (Hkey : consent_key (c ++ "_" ++ x) y = consent_key c (x ++ "_" ++ y)).
  { unfold consent_key. now rewrite sapp_assoc. }
  pose (w1 := after_upsert now profiles req1 w).
  assert (Hwf2 : wf_world (after_upsert now profiles req2 w1))
    by (do 2 apply wf_after_upsert; assumption).
  destruct Hwf2 as [ND _ _].
  assert (Hget : Dict.get (consent_key c (x ++ "_" ++ y))
                          (consents_db (after_upsert now profiles req2 w1)) = Some req2).
  { rewrite consents_after_upsert.
    cbn [ConsentRequest.client_id ConsentRequest.company req2].
    rewrite Hkey. apply DictFacts.get_set_eq. }
  do 5 eexists.
  split; [exact (manage_consent_success now profiles req1 w p1 Hp1 Hv1)|].
  split; [exact (manage_consent_success now profiles req2 w1 p2 Hp2 Hv2)|].
  cbn [consent_id ConsentRequest.client_id ConsentRequest.company req1 req2].
  split; [now rewrite Hkey|]. split; [exact Hget|].
  split; [apply get_client_consents_run|].
  intros e He Hid. apply In_client_consents in He.
  destruct He as [k [c' [HI [Hcl ->]]]]. cbn in Hid. subst k.
  apply (DictFacts.In_get _ _ _ ND) in HI.
  pose proof (eq_trans (eq_sym HI) Hget) as HE.
  inversion HE; subst c'. cbn in Hcl.
  apply (f_equal String.length) in Hcl.
  rewrite length_sapp in Hcl. simpl in Hcl. lia.
Qed.

End Frame.

(** ** Reading after an upsert, in any state *)

Section ReadAfterUpsert.

Variable now : nat -> string.
Variable profiles : Dict.t ClientProfile.t.

Lemma get_In_datasets_of k d company w :
  Dict.get k (aggregated_data_db w) = Some d ->
  AggregatedData.company d = company ->
  In d (datasets_of company w).
Proof.
  intros Hg Hc. apply In_datasets_of. split; [|assumption].
  apply DictFacts.get_Some_In in Hg.
  change (In (snd (k, d)) (map snd (aggregated_data_db w))). now apply in_map.
Qed.

(** Whatever the tables hold, after an active upsert for a partner
    company the read for that company answers with a non-empty list
    that contains the pair's three fresh datasets, so at least three
    entries, and [total_datasets] is the length of the list. *)
Theorem active_upsert_read_includes
        (client_id company : string) (data_types : list string)
        (p : ClientProfile.t) (w : World) :
  Dict.get client_id profiles = Some p ->
  In company COMPANIES ->
  valid_data_types data_types ->
  exists resp w' data,
    manage_consent now profiles
      (ConsentRequest.mk client_id company data_types true) w = (inr resp, w')
    /\ get_aggregated_data company w' = (inr (CompanyData company (length data) data), w')
    /\ In (categories_record now p company (S (clock_reads w))) data
    /\ In (average_record now p company (2 + clock_reads w)) data
    /\ In (demographics_record now p company (3 + clock_reads w)) data
    /\ 3 <= length data.
Proof.
  intros Hp Hc Hv.
  set (req := ConsentRequest.mk client_id company data_types true).
  set (w' := after_upsert now profiles req w).
  assert (Hagg : aggregated_data_db w'
                 = store_aggregates now client_id company p (S (clock_reads w))
                                    (aggregated_data_db w)).
  { unfold w'. now rewrite (after_upsert_active now profiles req w p Hp eq_refl). }
  assert (H1 : In (categories_record now p company (S (clock_reads w)))
                  (datasets_of company w')).
  { eapply get_In_datasets_of; [rewrite Hagg; apply get_categories_stored | reflexivity]. }
  assert (H2 : In (average_record now p company (2 + clock_reads w))
                  (datasets_of company w')).
  { eapply get_In_datasets_of; [rewrite Hagg; apply get_average_stored | reflexivity]. }
  assert (H3 : In (demographics_record now p company (3 + clock_reads w))
                  (datasets_of company w')).
  { eapply get_In_datasets_of; [rewrite Hagg; apply get_demographics_stored | reflexivity]. }
  exists (mkConsentResponse "Согласие успешно обновлено"
                            (consent_key client_id company) req),
         w', (datasets_of company w').
  split; [exact (manage_consent_success now profiles req w p Hp Hv)|].
  split.
  { rewrite get_aggregated_data_run. apply list_mem_In in Hc. rewrite Hc.
    destruct (datasets_of company w'); [destruct H1 | reflexivity]. }
  split; [exact H1|]. split; [exact H2|]. split; [exact H3|].
  change 3 with (length [categories_record now p company (S (clock_reads w));
                         average_record now p company (2 + clock_reads w);
                         demographics_record now p company (3 + clock_reads w)]).
  apply NoDup_incl_length.
  - repeat constructor; simpl; unfold categories_record, average_record,
      demographics_record; intuition discriminate.
  - intros d [<-|[<-|[<-|[]]]]; assumption.
Qed.

(** Switching a consent off does not hide anything: from empty
    tables, after an active upsert and then an upsert of the same
    pair with [is_active = false], the partner reads the same three
    datasets as before, while the client's list shows the one grant
    as inactive. *)
Theorem deactivation_keeps_data_readable
        (client_id company : string) (data_types1 data_types2 : list string)
        (p : ClientProfile.t) (w : World) :
  Dict.get client_id profiles = Some p ->
  In company COMPANIES ->
  valid_data_types data_types1 ->
  valid_data_types data_types2 ->
  consents_db w = Dict.empty ->
  aggregated_data_db w = Dict.empty ->
  exists r1 w1 r2 w2 d1 d2 d3,
    manage_consent now profiles
      (ConsentRequest.mk client_id company data_types1 true) w = (inr r1, w1)
    /\ manage_consent now profiles
         (ConsentRequest.mk client_id company data_types2 false) w1 = (inr r2, w2)
    /\ get_aggregated_data company w1
       = (inr (CompanyData company 3 [d1; d2; d3]), w1)
    /\ get_aggregated_data company w2
       = (inr (CompanyData company 3 [d1; d2; d3]), w2)
    /\ get_client_consents client_id w2
       = (inr [(consent_key client_id company, company, data_types2, false, None)], w2).
Proof.
  intros Hp Hc Hv1 Hv2 Hcons Hagg.
  set (req1 := ConsentRequest.mk client_id company data_types1 true).
  set (req2 := ConsentRequest.mk client_id company data_types2 false).
  set (w1 := after_upsert now profiles req1 w).
  set (w2 := after_upsert now profiles req2 w1).
  assert (E1 : w1 = mkWorld [(consent_key client_id company, req1)]
                            (store_aggregates now client_id company p (S (clock_reads w))
                                              Dict.empty)
                            (4 + clock_reads w)).
  { unfold w1. rewrite (after_upsert_active now profiles req1 w p Hp eq_refl).
    now rewrite Hcons, Hagg. }
  assert (E2 : w2 = mkWorld [(consent_key client_id company, req2)]
                            (store_aggregates now client_id company p (S (clock_reads w))
                                              Dict.empty)
                            (5 + clock_reads w)).
  { unfold w2. rewrite (after_upsert_inactive now profiles req2 w1 eq_refl), E1.
    cbn [consents_db aggregated_data_db clock_reads ConsentRequest.client_id
         ConsentRequest.company req2 Dict.set].
    now rewrite String.eqb_refl. }
  apply list_mem_In in Hc.
  pose proof (manage_consent_success now profiles req1 w p Hp Hv1) as M1.
  pose proof (manage_consent_success now profiles req2 w1 p Hp Hv2) as M2.
  fold w1 in M1. fold w2 in M2. clearbody w1 w2. subst w1 w2.
  do 7 eexists.
  split; [exact M1|]. split; [exact M2|].
  split; [|split].
  - rewrite get_aggregated_data_run, Hc, datasets_of_fresh. reflexivity.
  - rewrite get_aggregated_data_run, Hc, datasets_of_fresh. reflexivity.
  - rewrite get_client_consents_run.
    cbn [consents_db filter map fst snd ConsentRequest.client_id req2].
    rewrite String.eqb_refl. reflexivity.
Qed.

End ReadAfterUpsert.

(** ** Invariants of the reachable states *)

(** The endpoints that [step] leaves out only read: each returns the
    state it was given, so they reach no further state. *)
Lemma read_only_endpoints_keep_state (profiles : Dict.t ClientProfile.t)
      (client_id : string) (w : World) :
  snd (get_available_clients profiles w) = w
  /\ snd (get_available_companies w) = w
  /\ snd (get_available_data_types w) = w
  /\ snd (get_client_profile profiles client_id w) = w
  /\ snd (debug_consents w) = w
  /\ snd (debug_aggregated w) = w.
Proof.
  repeat split. unfold get_client_profile.
  destruct (negb (Dict.mem client_id profiles)); [reflexivity|].
  destruct (Dict.get client_id profiles); reflexivity.
Qed.

Section ReachableInvariants.

Variable now : nat -> string.
Variable profiles : Dict.t ClientProfile.t.

(** A property of the state holds wherever the endpoints can get to
    once it holds of the empty tables and survives the two updates
    there are: storing a grant (validated by POST /consent, or one of
    the demo grants) and revoking. *)
Lemma reachable_preserved (P : World -> Prop) :
  P initial_world ->
  (forall req w,
      P w ->
      (Dict.mem (ConsentRequest.client_id req) profiles = true
       /\ valid_data_types (ConsentRequest.data_types req))
      \/ In req demo_consents ->
      P (after_upsert now profiles req w)) ->
  (forall consent_id w, P w -> P (snd (revoke_consent consent_id w))) ->
  forall w, reachable now profiles w -> P w.
Proof.
  intros Hinit Hup Hrev w Hr. induction Hr as [|w w' _ IH Hs]; [assumption|].
  destruct Hs.
  - rewrite manage_consent_run.
    destruct (Dict.mem (ConsentRequest.client_id req) profiles) eqn:Em;
      cbn [negb]; [|assumption].
    destruct (first_invalid (ConsentRequest.data_types req)) eqn:Ef; [assumption|].
    cbn [snd]. apply Hup; [assumption|]. left. split; [exact Em|].
    now apply first_invalid_None.
  - now apply Hrev.
  - rewrite get_aggregated_data_run. destruct (list_mem _ _); assumption.
  - assumption.
  - rewrite get_demo_data_world.
    assert (Hall : forall c, In c demo_consents -> In c demo_consents) by auto.
    revert Hall. generalize demo_consents at 1 3. intros l.
    revert w IH. induction l as [|c l IHl]; intros w IH Hall; [assumption|].
    cbn [fold_left]. apply IHl.
    + apply Hup; [assumption|]. right. apply Hall. now left.
    + intros c' Hc'. apply Hall. now right.
Qed.

(** Every dataset in a reachable state has the shape aggregation
    gives it: sample size 1, and a kind that matches both its metrics
    and the suffix of its key. *)
Theorem reachable_datasets_shaped (w : World) (k : string) (d : AggregatedData.t) :
  reachable now profiles w ->
  In (k, d) (aggregated_data_db w) ->
  stored_shape k d.
Proof.
  intros Hr. revert k d.
  apply (reachable_preserved
           (fun w => forall k d, In (k, d) (aggregated_data_db w) -> stored_shape k d));
    [| | | exact Hr].
  - intros k d [].
  - intros req w0 IH _ k d. unfold after_upsert.
    destruct (ConsentRequest.is_active req); [|apply IH].
    destruct (Dict.get (ConsentRequest.client_id req) profiles) as [p|] eqn:E.
    + rewrite (generate_known _ _ _ _ p) by assumption.
      cbn [snd aggregated_data_db]. unfold store_aggregates. intros HI.
      apply DictFacts.In_set in HI. destruct HI as [HI|HI].
      { inversion HI; subst. split; [reflexivity|]. eexists. right. right.
        split; [reflexivity|]. split; [reflexivity|].
        unfold demographics_record, demographic_metrics. cbn. eauto. }
      apply DictFacts.In_set in HI. destruct HI as [HI|HI].
      { inversion HI; subst. split; [reflexivity|]. eexists. right. left.
        split; [reflexivity|]. split; [reflexivity|].
        unfold average_record, average_metrics. cbn. eauto 6. }
      apply DictFacts.In_set in HI. destruct HI as [HI|HI].
      { inversion HI; subst. split; [reflexivity|]. eexists. left.
        split; [reflexivity|]. split; [reflexivity|].
        unfold categories_record, category_metrics. cbn. eauto 6. }
      now apply IH.
    + rewrite generate_unknown by assumption. apply IH.
  - intros consent_id w0 IH k d. rewrite revoke_consent_run.
    destruct (Dict.mem consent_id (consents_db w0)); [|apply IH].
    cbn [snd aggregated_data_db]. destruct (Dict.mem _ (aggregated_data_db w0)).
    + intros HI. apply IH. eapply DictFacts.In_del; eauto.
    + apply IH.
Qed.

(** In a reachable state the datasets come in complete triples: a
    key ends in a dataset suffix, and the keys with the other two
    suffixes on the same data key are in the table as well. *)
Theorem reachable_complete_triples (w : World) :
  reachable now profiles w -> complete_triples (aggregated_data_db w).
Proof.
  apply (reachable_preserved (fun w => complete_triples (aggregated_data_db w))).
  - intros k [].
  - intros req w0 IH _. unfold after_upsert.
    destruct (ConsentRequest.is_active req); [|exact IH].
    destruct (Dict.get (ConsentRequest.client_id req) profiles) as [p|] eqn:E.
    + rewrite (generate_known _ _ _ _ p) by assumption.
      cbn [snd aggregated_data_db]. intros k Hk.
      apply keys_store_aggregates in Hk. destruct Hk as [Hk|Hk].
      * destruct (IH k Hk) as [prefix [s [Hs [-> Hall]]]].
        exists prefix, s. split; [assumption|]. split; [reflexivity|].
        intros s' Hs'. apply keys_store_aggregates. left. now apply Hall.
      * apply in_map_iff in Hk. destruct Hk as [s [<- Hs]].
        eexists _, s. split; [assumption|]. split; [reflexivity|].
        intros s' Hs'. apply keys_store_aggregates. right.
        now apply (in_map (fun s => consent_key (ConsentRequest.client_id req)
                                                (ConsentRequest.company req) ++ s)).
    + rewrite generate_unknown by assumption. exact IH.
  - intros consent_id w0 IH. rewrite revoke_consent_run.
    destruct (Dict.mem consent_id (consents_db w0)); [|exact IH].
    cbn [snd aggregated_data_db].
    rewrite aggregated_key_absent; [exact IH|].
    intros k Hk. destruct (IH k Hk) as [prefix [s [Hs [-> _]]]]. eauto.
Qed.

Lemma reachable_grants_valid_aux (w : World) (k : string) (c : ConsentRequest.t) :
  (forall demo, In demo demo_consents ->
                Dict.mem (ConsentRequest.client_id demo) profiles = true) ->
  reachable now profiles w ->
  In (k, c) (consents_db w) ->
  Dict.mem (ConsentRequest.client_id c) profiles = true
  /\ valid_data_types (ConsentRequest.data_types c)
  /\ k = consent_key (ConsentRequest.client_id c) (ConsentRequest.company c).
Proof.
  intros Hdemo Hr. revert k c.
  apply (reachable_preserved
           (fun w => forall k c, In (k, c) (consents_db w) ->
              Dict.mem (ConsentRequest.client_id c) profiles = true
              /\ valid_data_types (ConsentRequest.data_types c)
              /\ k = consent_key (ConsentRequest.client_id c) (ConsentRequest.company c)));
    [| | | exact Hr].
  - intros k c [].
  - intros req w0 IH Hreq k c. rewrite consents_after_upsert. intros HI.
    apply DictFacts.In_set in HI. destruct HI as [HI|HI]; [|now apply IH].
    inversion HI; subst. destruct Hreq as [[Hm Hv]|Hd].
    + auto.
    + split; [now apply Hdemo|]. split; [|reflexivity].
      destruct Hd as [<-|[<-|[<-|[]]]]; cbn; permitted.
  - intros consent_id w0 IH k c. rewrite revoke_consent_run.
    destruct (Dict.mem consent_id (consents_db w0)); [|apply IH].
    cbn [snd consents_db]. intros HI. apply IH. eapply DictFacts.In_del; eauto.
Qed.

(** When the clients of the demo grants are in the profile table,
    every grant in a reachable state names a known client, carries
    only permitted data types, and sits under the key made of its own
    client id and company. *)
Theorem reachable_grants_valid (w : World) (k : string) (c : ConsentRequest.t) :
  (forall demo, In demo demo_consents ->
                Dict.mem (ConsentRequest.client_id demo) profiles = true) ->
  reachable now profiles w ->
  In (k, c) (consents_db w) ->
  Dict.mem (ConsentRequest.client_id c) profiles = true
  /\ valid_data_types (ConsentRequest.data_types c)
  /\ k = consent_key (ConsentRequest.client_id c) (ConsentRequest.company c).
Proof. apply reachable_grants_valid_aux. Qed.

(** The consent list of an id that is not in the profile table is
    empty in every reachable state, and is not an error: the list
    endpoint does not check the id. *)
Theorem unknown_client_lists_nothing (w : World) (client_id : string) :
  (forall demo, In demo demo_consents ->
                Dict.mem (ConsentRequest.client_id demo) profiles = true) ->
  reachable now profiles w ->
  Dict.mem client_id profiles = false ->
  get_client_consents client_id w = (inr [], w).
Proof.
  intros Hdemo Hr Hm. rewrite get_client_consents_run.
  destruct (map _ _) as [|e l] eqn:E; [reflexivity|].
  assert (HI : In e (e :: l)) by now left.
  rewrite <- E in HI. apply In_client_consents in HI.
  destruct HI as [k [c [HI [Hc _]]]].
  destruct (reachable_grants_valid_aux w k c Hdemo Hr HI) as [Hk _].
  congruence.
Qed.

End ReachableInvariants.

(** ** The demo data *)

Section Demo.

Variable now : nat -> string.
Variable profiles : Dict.t ClientProfile.t.

Let upsert_all (l : list ConsentRequest.t) (w : World) : World :=
  fold_left (fun w c => after_upsert now profiles c w) l w.

Lemma set_same {V} (k : string) (v : V) (d : Dict.t V) :
  Dict.get k d = Some v -> Dict.set k v d = d.
Proof.
  induction d as [|[k0 v0] d IH]; simpl; [discriminate|].
  destruct (String.eqb_spec k k0) as [->|Hk]; intros H.
  - now inversion H.
  - f_equal. now apply IH.
Qed.

Lemma aggregate_keys_after_upsert_mono req w k :
  In k (Dict.keys (aggregated_data_db w)) ->
  In k (Dict.keys (aggregated_data_db (after_upsert now profiles req w))).
Proof.
  intros H. unfold after_upsert. destruct (ConsentRequest.is_active req); [|exact H].
  destruct (Dict.get (ConsentRequest.client_id req) profiles) as [p|] eqn:E.
  - rewrite (generate_known _ _ _ _ p) by assumption. cbn [snd aggregated_data_db].
    apply keys_store_aggregates. now left.
  - rewrite generate_unknown by assumption. exact H.
Qed.

Lemma aggregate_keys_upsert_all_mono l w k :
  In k (Dict.keys (aggregated_data_db w)) ->
  In k (Dict.keys (aggregated_data_db (upsert_all l w))).
Proof.
  revert w. induction l as [|c l IH]; intros w H; [exact H|].
  apply IH. now apply aggregate_keys_after_upsert_mono.
Qed.

(** An upsert adds no key to a table that already has the keys it
    would add to another. *)
Lemma aggregate_keys_after_upsert_covered req w w' :
  (forall k, In k (Dict.keys (aggregated_data_db (after_upsert now profiles req w))) ->
             In k (Dict.keys (aggregated_data_db w'))) ->
  Dict.keys (aggregated_data_db (after_upsert now profiles req w'))
  = Dict.keys (aggregated_data_db w').
Proof.
  unfold after_upsert. destruct (ConsentRequest.is_active req); [|reflexivity].
  destruct (Dict.get (ConsentRequest.client_id req) profiles) as [p|] eqn:E.
  - rewrite !(generate_known _ _ _ _ p) by assumption. cbn [snd aggregated_data_db].
    intros H.
    assert (Hs : forall s, In s dataset_suffixes ->
                   In (consent_key (ConsentRequest.client_id req)
                                   (ConsentRequest.company req) ++ s)
                      (Dict.keys (aggregated_data_db w'))).
    { intros s Hs. apply H. apply keys_store_aggregates. right.
      now apply (in_map (fun s => consent_key (ConsentRequest.client_id req)
                                              (ConsentRequest.company req) ++ s)). }
    unfold store_aggregates.
    rewrite !DictFacts.keys_set_present; auto.
    + apply Hs; simpl; auto.
    + rewrite DictFacts.keys_set_present; apply Hs; simpl; auto.
    + rewrite !DictFacts.keys_set_present; try (apply Hs; simpl; auto).
      rewrite DictFacts.keys_set_present; apply Hs; simpl; auto.
  - rewrite !generate_unknown by assumption. reflexivity.
Qed.

Lemma aggregate_keys_upsert_all_covered l w w' :
  (forall k, In k (Dict.keys (aggregated_data_db (upsert_all l w))) ->
             In k (Dict.keys (aggregated_data_db w'))) ->
  Dict.keys (aggregated_data_db (upsert_all l w'))
  = Dict.keys (aggregated_data_db w').
Proof.
  revert w w'. induction l as [|c l IH]; intros w w' H; [reflexivity|].
  cbn [upsert_all fold_left] in *.
  assert (Hc : Dict.keys (aggregated_data_db (after_upsert now profiles c w'))
               = Dict.keys (aggregated_data_db w')).
  { apply (aggregate_keys_after_upsert_covered c w). intros k Hk. apply H.
    now apply aggregate_keys_upsert_all_mono. }
  rewrite <- Hc. apply (IH (after_upsert now profiles c w)).
  intros k Hk. rewrite Hc. now apply H.
Qed.

Lemma consents_upsert_all l w :
  consents_db (upsert_all l w)
  = fold_left (fun d c => Dict.set (consent_key (ConsentRequest.client_id c)
                                                (ConsentRequest.company c)) c d)
              l (consents_db w).
Proof.
  revert w. induction l as [|c l IH]; intros w; [reflexivity|].
  cbn [upsert_all fold_left] in *. now rewrite IH, consents_after_upsert.
Qed.

(** GET /demo-data answers normally in any state and leaves each of
    its three grants stored under its key; asking again changes
    neither the consent table nor the set of dataset keys. *)
Theorem demo_data_idempotent (w : World) :
  let w1 := snd (get_demo_data now profiles w) in
  let w2 := snd (get_demo_data now profiles w1) in
  fst (get_demo_data now profiles w) = inr ("Демо-данные успешно созданы", 3)
  /\ (forall c, In c demo_consents ->
        Dict.get (consent_key (ConsentRequest.client_id c) (ConsentRequest.company c))
                 (consents_db w1) = Some c)
  /\ consents_db w2 = consents_db w1
  /\ Dict.keys (aggregated_data_db w2) = Dict.keys (aggregated_data_db w1).
Proof.
  cbv zeta. rewrite !get_demo_data_world. fold (upsert_all demo_consents w).
  fold (upsert_all demo_consents (upsert_all demo_consents w)).
  assert (Hget : forall c, In c demo_consents ->
            Dict.get (consent_key (ConsentRequest.client_id c) (ConsentRequest.company c))
                     (consents_db (upsert_all demo_consents w)) = Some c).
  { intros c Hc. rewrite consents_upsert_all. cbn [demo_consents fold_left].
    destruct Hc as [<-|[<-|[<-|[]]]];
      cbn [ConsentRequest.client_id ConsentRequest.company];
      repeat first [ apply DictFacts.get_set_eq
                   | rewrite DictFacts.get_set_neq by (vm_compute; discriminate) ]. }
  split.
  { unfold get_demo_data, bind. rewrite demo_loop_run by (repeat constructor).
    reflexivity. }
  split; [exact Hget|]. split.
  - rewrite (consents_upsert_all demo_consents (upsert_all demo_consents w)).
    cbn [demo_consents fold_left].
    repeat match goal with
           | |- context [Dict.set ?k ?v (consents_db ?x)] =>
               rewrite (set_same k v (consents_db x)) by (apply (Hget v); simpl; auto)
           end.
    reflexivity.
  - apply (aggregate_keys_upsert_all_covered demo_consents w). auto.
Qed.

End Demo.

(** ** Consistency of the stored metrics *)

Lemma category_metrics_consistent transactions :
  exists m top n total,
    category_metrics transactions = CategoryMetrics m top n total
    /\ category_consistent m top n.
Proof.
  unfold category_metrics. do 4 eexists. split; [reflexivity|].
  split; [reflexivity|split; [apply group_by_category_NoDup|split]].
  - intros E. now rewrite E.
  - intros NE. destruct (top_category_first_max _ NE) as [pre [v [post [E [H1 H2]]]]].
    exists v. split.
    + apply DictFacts.In_get; [apply group_by_category_NoDup|].
      rewrite E at 2. apply in_or_app. right. now left.
    + intros e He. rewrite E in He. apply in_app_or in He.
      destruct He as [He|[<-|He]].
      * apply not_leb_not_ltb. now apply H1.
      * apply ltb_irrefl.
      * now apply H2.
Qed.

Lemma average_metrics_consistent transactions :
  exists average mn mx n total,
    average_metrics transactions = AverageMetrics average mn mx n total
    /\ average_consistent average mn mx n total.
Proof.
  unfold average_metrics. do 5 eexists. split; [reflexivity|].
  destruct transactions as [|t l].
  - split; [intros _; cbn; repeat split; reflexivity | intros H; inversion H].
  - split; [discriminate|]. intros _. split; [reflexivity|].
    cbn [map].
    destruct (py_min_spec (map Transaction.amount l) (Transaction.amount t)) as [Hin _].
    destruct (py_max_spec (map Transaction.amount l) (Transaction.amount t)) as [_ Hmax].
    now apply Hmax.
Qed.

Section MetricsInvariant.

Variable now : nat -> string.
Variable profiles : Dict.t ClientProfile.t.

Lemma reachable_metrics (w : World) (k : string) (d : AggregatedData.t) :
  reachable now profiles w ->
  In (k, d) (aggregated_data_db w) ->
  match AggregatedData.metrics d with
  | CategoryMetrics m top n total => category_consistent m top n
  | AverageMetrics average mn mx n total => average_consistent average mn mx n total
  | DemographicMetrics _ _ _ _ => True
  end.
Proof.
  intros Hr. revert k d.
  apply (reachable_preserved now profiles
           (fun w => forall k d, In (k, d) (aggregated_data_db w) ->
              match AggregatedData.metrics d with
              | CategoryMetrics m top n total => category_consistent m top n
              | AverageMetrics average mn mx n total =>
                  average_consistent average mn mx n total
              | DemographicMetrics _ _ _ _ => True
              end));
    [| | | exact Hr].
  - intros k d [].
  - intros req w0 IH _ k d. unfold after_upsert.
    destruct (ConsentRequest.is_active req); [|apply (IH k d)].
    destruct (Dict.get (ConsentRequest.client_id req) profiles) as [p|] eqn:E.
    + rewrite (generate_known _ _ _ _ p) by assumption.
      cbn [snd aggregated_data_db]. unfold store_aggregates. intros HI.
      apply DictFacts.In_set in HI. destruct HI as [HI|HI].
      { inversion HI; subst. exact I. }
      apply DictFacts.In_set in HI. destruct HI as [HI|HI].
      { inversion HI; subst. cbn [AggregatedData.metrics average_record].
        destruct (average_metrics_consistent (ClientProfile.transactions p))
          as [a [mn [mx [n [total [-> H]]]]]]. exact H. }
      apply DictFacts.In_set in HI. destruct HI as [HI|HI].
      { inversion HI; subst. cbn [AggregatedData.metrics categories_record].
        destruct (category_metrics_consistent (ClientProfile.transactions p))
          as [m [top [n [total [-> H]]]]]. exact H. }
      exact (IH k d HI).
    + rewrite generate_unknown by assumption. apply (IH k d).
  - intros consent_id w0 IH k d. rewrite revoke_consent_run.
    destruct (Dict.mem consent_id (consents_db w0)); [|apply (IH k d)].
    cbn [snd aggregated_data_db]. destruct (Dict.mem _ (aggregated_data_db w0)).
    + intros HI. apply (IH k d). eapply DictFacts.In_del; eauto.
    + apply (IH k d).
Qed.

(** In every reachable state a category dataset is consistent with
    itself: its category count is the size of its mapping, the
    categories of the mapping are distinct, and its top category is a
    key of the mapping whose amount no entry exceeds (the placeholder
    when the mapping is empty). *)
Theorem reachable_category_consistent
        (w : World) (k : string) (d : AggregatedData.t)
        (m : Dict.t float) (top : string) (n : nat) (total : float) :
  reachable now profiles w ->
  In (k, d) (aggregated_data_db w) ->
  AggregatedData.metrics d = CategoryMetrics m top n total ->
  n = length m
  /\ NoDup (Dict.keys m)
  /\ (m = [] -> top = "Нет данных")
  /\ (m <> [] -> exists v, Dict.get top m = Some v
                           /\ forall e, In e m -> (v <? snd e)%float = false).
Proof.
  intros Hr HI E. pose proof (reachable_metrics w k d Hr HI) as H.
  rewrite E in H. exact H.
Qed.

(** In every reachable state an average dataset is consistent with
    itself: with no transaction everything is 0; otherwise the
    average is round(total / count, 2) of the total and the count
    stored beside it, and the maximum is not smaller than the
    minimum. *)
Theorem reachable_average_consistent
        (w : World) (k : string) (d : AggregatedData.t)
        (average mn mx : float) (n : nat) (total : float) :
  reachable now profiles w ->
  In (k, d) (aggregated_data_db w) ->
  AggregatedData.metrics d = AverageMetrics average mn mx n total ->
  (n = 0 -> average = 0%float /\ mn = 0%float /\ mx = 0%float /\ total = 0%float)
  /\ (0 < n ->
      average = py_round2 (total / float_of_Z (Z.of_nat n))%float
      /\ (mx <? mn)%float = false).
Proof.
  intros Hr HI E. pose proof (reachable_metrics w k d Hr HI) as H.
  rewrite E in H. exact H.
Qed.

End MetricsInvariant.

(** ** The partner panel *)

Lemma group_dataset_get acc dataset t :
  Dict.get t (group_dataset acc dataset) =
    if String.eqb t (AggregatedData.data_type dataset)
    then Some (match Dict.get t acc with Some l => l | None => [] end ++ [dataset])%list
    else Dict.get t acc.
Proof.
  unfold group_dataset.
  destruct (Dict.mem (AggregatedData.data_type dataset) acc) eqn:E; cbn [negb].
  - unfold Dict.mem in E.
    destruct (Dict.get (AggregatedData.data_type dataset) acc) as [l|] eqn:G;
      [|discriminate].
    destruct (String.eqb_spec t (AggregatedData.data_type dataset)) as [->|Hne].
    + rewrite G. apply DictFacts.get_set_eq.
    + now apply DictFacts.get_set_neq.
  - apply DictFacts.mem_false_iff in E. rewrite DictFacts.get_set_eq.
    destruct (String.eqb_spec t (AggregatedData.data_type dataset)) as [->|Hne].
    + rewrite E. apply DictFacts.get_set_eq.
    + now rewrite !DictFacts.get_set_neq.
Qed.

Lemma group_datasets_get_acc data acc t :
  (forall t' l, Dict.get t' acc = Some l -> l <> []) ->
  Dict.get t (fold_left group_dataset data acc) =
    match (match Dict.get t acc with Some l => l | None => [] end
           ++ filter (fun d => String.eqb (AggregatedData.data_type d) t) data)%list with
    | [] => None
    | l => Some l
    end.
Proof.
  revert acc. induction data as [|d data IH]; intros acc Hacc.
  - cbn [fold_left filter]. rewrite app_nil_r.
    destruct (Dict.get t acc) as [l|] eqn:E; [|reflexivity].
    destruct l; [exfalso; now apply (Hacc t [])| reflexivity].
  - cbn [fold_left filter]. rewrite IH.
    + rewrite group_dataset_get, (String.eqb_sym t).
      destruct (String.eqb (AggregatedData.data_type d) t); [|reflexivity].
      now rewrite <- app_assoc.
    + intros t' l. rewrite group_dataset_get.
      destruct (String.eqb t' (AggregatedData.data_type d)); [|apply Hacc].
      intros E; inversion E. now destruct (match Dict.get t' acc with
                                          | Some l0 => l0 | None => [] end).
Qed.

(** The panel's grouping is a partition by kind: the group stored
    under a kind is the list of the received datasets of that kind, in
    the order received, and a kind no dataset has gets no group. *)
Theorem group_datasets_partition (data : list AggregatedData.t) (t : string) :
  Dict.get t (group_datasets data) =
    match filter (fun d => String.eqb (AggregatedData.data_type d) t) data with
    | [] => None
    | l => Some l
    end.
Proof.
  unfold group_datasets. rewrite group_datasets_get_acc; [reflexivity|].
  intros t' l E; discriminate E.
Qed.

Lemma lookup0_add_amount acc e c :
  lookup0 c (add_amount acc e) =
    if String.eqb (fst e) c then (lookup0 c acc + snd e)%float else lookup0 c acc.
Proof.
  destruct e as [category amount].
  exact (lookup0_add_transaction acc (Transaction.mk "" amount category "" "") c).
Qed.

Lemma add_amount_keys acc e :
  Dict.keys (add_amount acc e) = remember (Dict.keys acc) (fst e).
Proof.
  destruct e as [category amount].
  exact (add_transaction_keys acc (Transaction.mk "" amount category "" "")).
Qed.

Lemma lookup0_fold_add_amount (m acc : Dict.t float) c :
  lookup0 c (fold_left add_amount m acc) =
    fold_left PrimFloat.add
              (map snd (filter (fun e => String.eqb (fst e) c) m)) (lookup0 c acc).
Proof.
  revert acc. induction m as [|e m IH]; intros acc; [reflexivity|].
  cbn [fold_left filter]. rewrite IH, lookup0_add_amount.
  destruct (String.eqb (fst e) c); reflexivity.
Qed.

Lemma NoDup_fold_add_amount (m acc : Dict.t float) :
  NoDup (Dict.keys acc) -> NoDup (Dict.keys (fold_left add_amount m acc)).
Proof.
  revert acc. induction m as [|e m IH]; intros acc H; [exact H|].
  cbn [fold_left]. apply IH. rewrite add_amount_keys. now apply NoDup_remember.
Qed.

(** The panel's category chart adds the datasets up in the order
    received: the amount it shows for a category is what the mappings
    of the datasets hold for that category (nothing for a dataset
    without the category or without a mapping), added one after
    another from 0, and no category appears twice. *)
Theorem merge_category_spending_sums (datasets : list AggregatedData.t) (c : string) :
  lookup0 c (merge_category_spending datasets)
  = running_sum (flat_map (amounts_under c) datasets)
  /\ NoDup (Dict.keys (merge_category_spending datasets)).
Proof.
  unfold merge_category_spending, running_sum.
  assert (H : forall acc,
             lookup0 c (fold_left merge_dataset datasets acc)
             = fold_left PrimFloat.add (flat_map (amounts_under c) datasets)
                         (lookup0 c acc)).
  { induction datasets as [|d l IH]; intros acc; [reflexivity|].
    cbn [fold_left flat_map]. rewrite fold_left_app, IH.
    unfold merge_dataset, amounts_under. now rewrite lookup0_fold_add_amount. }
  assert (N : forall acc,
             NoDup (Dict.keys acc) ->
             NoDup (Dict.keys (fold_left merge_dataset datasets acc))).
  { clear H. induction datasets as [|d l IH]; intros acc Hacc; [exact Hacc|].
    cbn [fold_left]. apply IH. unfold merge_dataset.
    now apply NoDup_fold_add_amount. }
  split; [apply H | apply N; constructor].
Qed.

(** ** Concrete runs of the further properties *)

Lemma demo_world_reachable : reachable fixed_clock client_profiles_db demo_world.
Proof.
  apply (reachable_step _ _ initial_world); [constructor | apply step_get_demo_data].
Qed.

Lemma demo_world_wf : wf_world demo_world /\ aggregate_keyed demo_world.
Proof. exact (reachable_invariant _ _ _ demo_world_reachable). Qed.

Lemma demo_clients_known :
  forall demo, In demo demo_consents ->
               Dict.mem (ConsentRequest.client_id demo) client_profiles_db = true.
Proof. intros demo [<-|[<-|[<-|[]]]]; reflexivity. Qed.

Lemma upsert_then_list_witness :
  exists p,
    Dict.get "client_1" client_profiles_db = Some p
    /\ valid_data_types ["geography"]
    /\ wf_world initial_world
    /\ exists resp w' entries,
         manage_consent fixed_clock client_profiles_db
           (ConsentRequest.mk "client_1" "FinTech Insights" ["geography"] true)
           initial_world = (inr resp, w')
         /\ get_client_consents "client_1" w' = (inr entries, w')
         /\ In ((consent_key "client_1" "FinTech Insights", "FinTech Insights",
                 ["geography"], true, None) : ConsentSummary) entries
         /\ forall e, In e entries -> summary_company e = "FinTech Insights" ->
                      e = ((consent_key "client_1" "FinTech Insights", "FinTech Insights",
                            ["geography"], true, None) : ConsentSummary).
Proof.
  eexists. split; [reflexivity|]. split; [permitted|].
  split; [exact wf_initial_world|].
  eapply (upsert_then_list fixed_clock client_profiles_db
            "client_1" "FinTech Insights" ["geography"] true);
    [reflexivity | permitted | exact wf_initial_world].
Defined.

Lemma listed_consent_revocable_witness :
  exists e entries,
    wf_world demo_world
    /\ aggregate_keyed demo_world
    /\ get_client_consents "client_2" demo_world = (inr entries, demo_world)
    /\ In e entries
    /\ exists w',
         revoke_consent (summary_consent_id e) demo_world
         = (inr "Согласие полностью отозвано", w')
         /\ aggregated_data_db w' = aggregated_data_db demo_world
         /\ forall other before after,
              get_client_consents other demo_world = (inr before, demo_world) ->
              get_client_consents other w' = (inr after, w') ->
              forall e', In e' after <->
                         In e' before /\ summary_consent_id e' <> summary_consent_id e.
Proof.
  destruct demo_world_wf as [Hwf Hk].
  do 2 eexists. split; [exact Hwf|]. split; [exact Hk|].
  split; [reflexivity|].
  assert (HI : In (("client_2_Retail Analytics Pro", "Retail Analytics Pro",
                    ["category_spending"; "age_group_stats"], true, None)
                   : ConsentSummary)
                  (map (fun e => summary_of (fst e) (snd e))
                       (filter (fun e => String.eqb (ConsentRequest.client_id (snd e))
                                                    "client_2")
                               (Dict.items (consents_db demo_world)))))
    by (vm_compute; left; reflexivity).
  split; [exact HI|].
  exact (listed_consent_revocable "client_2" _ _ demo_world Hwf Hk eq_refl HI).
Defined.

Lemma revoke_twice_not_found_witness :
  exists msg w',
    wf_world demo_world
    /\ revoke_consent "client_3_FinTech Insights" demo_world = (inr msg, w')
    /\ revoke_consent "client_3_FinTech Insights" w'
       = (inl (HTTPException 404 "Согласие не найдено"), w').
Proof.
  destruct demo_world_wf as [Hwf _].
  do 2 eexists. split; [exact Hwf|].
  assert (E : revoke_consent "client_3_FinTech Insights" demo_world
              = (inr "Согласие полностью отозвано",
                 snd (revoke_consent "client_3_FinTech Insights" demo_world)))
    by reflexivity.
  split; [exact E|].
  exact (revoke_twice_not_found _ _ demo_world _ Hwf E).
Defined.

Lemma upsert_then_revoke_restores_consents_witness :
  exists p,
    Dict.get "client_1" client_profiles_db = Some p
    /\ valid_data_types ["spending_frequency"]
    /\ Dict.mem (consent_key "client_1" "Market Research Co") (consents_db demo_world)
       = false
    /\ exists resp w1 w2,
         manage_consent fixed_clock client_profiles_db
           (ConsentRequest.mk "client_1" "Market Research Co" ["spending_frequency"] true)
           demo_world = (inr resp, w1)
         /\ revoke_consent (consent_id resp) w1 = (inr "Согласие полностью отозвано", w2)
         /\ consents_db w2 = consents_db demo_world.
Proof.
  eexists. split; [reflexivity|]. split; [permitted|]. split; [reflexivity|].
  eapply (upsert_then_revoke_restores_consents fixed_clock client_profiles_db
            "client_1" "Market Research Co" ["spending_frequency"] true);
    [reflexivity | permitted | reflexivity].
Defined.

Lemma upsert_frame_witness :
  exists p,
    Dict.get "client_3" client_profiles_db = Some p
    /\ valid_data_types ["average_bill"]
    /\ exists resp w',
         manage_consent fixed_clock client_profiles_db
           (ConsentRequest.mk "client_3" "Consumer Trends Lab" ["average_bill"] true)
           demo_world = (inr resp, w')
         /\ (forall k, k <> consent_key "client_3" "Consumer Trends Lab" ->
                       Dict.get k (consents_db w') = Dict.get k (consents_db demo_world))
         /\ (forall k s, In s dataset_suffixes ->
                         k <> consent_key "client_3" "Consumer Trends Lab" ->
                         Dict.get (k ++ s) (aggregated_data_db w')
                         = Dict.get (k ++ s) (aggregated_data_db demo_world)).
Proof.
  eexists. split; [reflexivity|]. split; [permitted|].
  eapply (upsert_frame fixed_clock client_profiles_db
            "client_3" "Consumer Trends Lab" ["average_bill"] true);
    [reflexivity | permitted].
Defined.

Lemma delimiter_collision_overwrites_witness :
  exists p1 p2,
    Dict.get "vip" nested_ids_table = Some p1
    /\ Dict.get ("vip" ++ "_" ++ "gold") nested_ids_table = Some p2
    /\ valid_data_types ["geography"]
    /\ valid_data_types ["average_bill"]
    /\ wf_world initial_world
    /\ exists r1 w1 r2 w2 entries,
         manage_consent fixed_clock nested_ids_table
           (ConsentRequest.mk "vip" ("gold" ++ "_" ++ "FinTech Insights")
              ["geography"] true) initial_world = (inr r1, w1)
         /\ manage_consent fixed_clock nested_ids_table
              (ConsentRequest.mk ("vip" ++ "_" ++ "gold") "FinTech Insights"
                 ["average_bill"] true) w1 = (inr r2, w2)
         /\ consent_id r1 = consent_id r2
         /\ Dict.get (consent_id r1) (consents_db w2)
            = Some (ConsentRequest.mk ("vip" ++ "_" ++ "gold") "FinTech Insights"
                      ["average_bill"] true)
         /\ get_client_consents "vip" w2 = (inr entries, w2)
         /\ forall e, In e entries -> summary_consent_id e <> consent_id r1.
Proof.
  do 2 eexists. split; [reflexivity|]. split; [reflexivity|].
  split; [permitted|]. split; [permitted|]. split; [exact wf_initial_world|].
  eapply (delimiter_collision_overwrites fixed_clock nested_ids_table
            "vip" "gold" "FinTech Insights" ["geography"] ["average_bill"] true true);
    [reflexivity | reflexivity | permitted | permitted | exact wf_initial_world].
Defined.

Lemma consent_key_injective_same_length_witness :
  String.length "client_1" = String.length "client_1"
  /\ consent_key "client_1" "FinTech Insights" = consent_key "client_1" "FinTech Insights"
  /\ "client_1" = "client_1" /\ "FinTech Insights" = "FinTech Insights".
Proof.
  split; [reflexivity|]. split; [reflexivity|].
  apply (consent_key_injective_same_length "client_1" "client_1"
           "FinTech Insights" "FinTech Insights"); reflexivity.
Defined.

Lemma active_upsert_read_includes_witness :
  exists p,
    Dict.get "client_3" client_profiles_db = Some p
    /\ In "Retail Analytics Pro" COMPANIES
    /\ valid_data_types ["category_spending"]
    /\ exists resp w' data,
         manage_consent fixed_clock client_profiles_db
           (ConsentRequest.mk "client_3" "Retail Analytics Pro" ["category_spending"] true)
           demo_world = (inr resp, w')
         /\ get_aggregated_data "Retail Analytics Pro" w'
            = (inr (CompanyData "Retail Analytics Pro" (length data) data), w')
         /\ In (categories_record fixed_clock p "Retail Analytics Pro"
                                  (S (clock_reads demo_world))) data
         /\ In (average_record fixed_clock p "Retail Analytics Pro"
                               (2 + clock_reads demo_world)) data
         /\ In (demographics_record fixed_clock p "Retail Analytics Pro"
                                    (3 + clock_reads demo_world)) data
         /\ 3 <= length data.
Proof.
  eexists. split; [reflexivity|]. split; [simpl; auto|]. split; [permitted|].
  apply (active_upsert_read_includes fixed_clock client_profiles_db
           "client_3" "Retail Analytics Pro" ["category_spending"]);
    [reflexivity | simpl; auto | permitted].
Defined.

Lemma deactivation_keeps_data_readable_witness :
  exists p,
    Dict.get "client_2" client_profiles_db = Some p
    /\ In "FinTech Insights" COMPANIES
    /\ valid_data_types ["category_spending"; "average_bill"]
    /\ valid_data_types ["category_spending"]
    /\ consents_db initial_world = Dict.empty
    /\ aggregated_data_db initial_world = Dict.empty
    /\ exists r1 w1 r2 w2 d1 d2 d3,
         manage_consent fixed_clock client_profiles_db
           (ConsentRequest.mk "client_2" "FinTech Insights"
              ["category_spending"; "average_bill"] true) initial_world = (inr r1, w1)
         /\ manage_consent fixed_clock client_profiles_db
              (ConsentRequest.mk "client_2" "FinTech Insights" ["category_spending"] false)
              w1 = (inr r2, w2)
         /\ get_aggregated_data "FinTech Insights" w1
            = (inr (CompanyData "FinTech Insights" 3 [d1; d2; d3]), w1)
         /\ get_aggregated_data "FinTech Insights" w2
            = (inr (CompanyData "FinTech Insights" 3 [d1; d2; d3]), w2)
         /\ get_client_consents "client_2" w2
            = (inr [(consent_key "client_2" "FinTech Insights", "FinTech Insights",
                     ["category_spending"], false, None)], w2).
Proof.
  eexists. split; [reflexivity|]. split; [simpl; auto|].
  split; [permitted|]. split; [permitted|]. split; [reflexivity|]. split; [reflexivity|].
  eapply (deactivation_keeps_data_readable fixed_clock client_profiles_db
            "client_2" "FinTech Insights" ["category_spending"; "average_bill"]
            ["category_spending"]);
    [reflexivity | simpl; auto | permitted | permitted | reflexivity | reflexivity].
Defined.

Lemma reachable_datasets_shaped_witness :
  exists k d,
    reachable fixed_clock client_profiles_db demo_world
    /\ In (k, d) (aggregated_data_db demo_world)
    /\ stored_shape k d.
Proof.
  do 2 eexists.
  assert (HI : In (hd ("", AggregatedData.mk "" "" (DemographicMetrics "" "" 0 0) 0 "")
                      (aggregated_data_db demo_world))
                  (aggregated_data_db demo_world)) by (vm_compute; left; reflexivity).
  split; [exact demo_world_reachable|]. split; [exact HI|].
  exact (reachable_datasets_shaped fixed_clock client_profiles_db demo_world _ _
           demo_world_reachable HI).
Defined.

Lemma reachable_complete_triples_witness :
  reachable fixed_clock client_profiles_db demo_world
  /\ complete_triples (aggregated_data_db demo_world).
Proof.
  split; [exact demo_world_reachable|].
  exact (reachable_complete_triples fixed_clock client_profiles_db demo_world
           demo_world_reachable).
Defined.

Lemma reachable_grants_valid_witness :
  exists k c,
    (forall demo, In demo demo_consents ->
                  Dict.mem (ConsentRequest.client_id demo) client_profiles_db = true)
    /\ reachable fixed_clock client_profiles_db demo_world
    /\ In (k, c) (consents_db demo_world)
    /\ Dict.mem (ConsentRequest.client_id c) client_profiles_db = true
    /\ valid_data_types (ConsentRequest.data_types c)
    /\ k = consent_key (ConsentRequest.client_id c) (ConsentRequest.company c).
Proof.
  do 2 eexists.
  assert (HI : In (hd ("", ConsentRequest.mk "" "" [] false) (consents_db demo_world))
                  (consents_db demo_world)) by (vm_compute; left; reflexivity).
  split; [exact demo_clients_known|]. split; [exact demo_world_reachable|].
  split; [exact HI|].
  exact (reachable_grants_valid fixed_clock client_profiles_db demo_world _ _
           demo_clients_known demo_world_reachable HI).
Defined.

Lemma unknown_client_lists_nothing_witness :
  (forall demo, In demo demo_consents ->
                Dict.mem (ConsentRequest.client_id demo) client_profiles_db = true)
  /\ reachable fixed_clock client_profiles_db demo_world
  /\ Dict.mem "client_9" client_profiles_db = false
  /\ get_client_consents "client_9" demo_world = (inr [], demo_world).
Proof.
  split; [exact demo_clients_known|]. split; [exact demo_world_reachable|].
  split; [reflexivity|].
  exact (unknown_client_lists_nothing fixed_clock client_profiles_db demo_world "client_9"
           demo_clients_known demo_world_reachable eq_refl).
Defined.

Lemma reachable_category_consistent_witness :
  exists k d m top n total,
    reachable fixed_clock client_profiles_db demo_world
    /\ In (k, d) (aggregated_data_db demo_world)
    /\ AggregatedData.metrics d = CategoryMetrics m top n total
    /\ n = length m
    /\ NoDup (Dict.keys m)
    /\ (m = [] -> top = "Нет данных")
    /\ (m <> [] -> exists v, Dict.get top m = Some v
                             /\ forall e, In e m -> (v <? snd e)%float = false).
Proof.
  do 6 eexists.
  assert (HI : In (hd ("", AggregatedData.mk "" "" (DemographicMetrics "" "" 0 0) 0 "")
                      (aggregated_data_db demo_world))
                  (aggregated_data_db demo_world)) by (vm_compute; left; reflexivity).
  split; [exact demo_world_reachable|]. split; [exact HI|].
  split; [reflexivity|].
  exact (reachable_category_consistent fixed_clock client_profiles_db demo_world _ _
           _ _ _ _ demo_world_reachable HI eq_refl).
Defined.

Lemma reachable_average_consistent_witness :
  exists k d average mn mx n total,
    reachable fixed_clock client_profiles_db demo_world
    /\ In (k, d) (aggregated_data_db demo_world)
    /\ AggregatedData.metrics d = AverageMetrics average mn mx n total
    /\ (n = 0 ->
        average = 0%float /\ mn = 0%float /\ mx = 0%float /\ total = 0%float)
    /\ (0 < n ->
        average = py_round2 (total / float_of_Z (Z.of_nat n))%float
        /\ (mx <? mn)%float = false).
Proof.
  do 7 eexists.
  assert (HI : In (hd ("", AggregatedData.mk "" "" (DemographicMetrics "" "" 0 0) 0 "")
                      (tl (aggregated_data_db demo_world)))
                  (aggregated_data_db demo_world)) by (vm_compute; right; left; reflexivity).
  split; [exact demo_world_reachable|]. split; [exact HI|].
  split; [reflexivity|].
  exact (reachable_average_consistent fixed_clock client_profiles_db demo_world _ _
           _ _ _ _ _ demo_world_reachable HI eq_refl).
Defined.

Lemma reachable_revoke_keeps_aggregates_witness :
  exists msg w',
    reachable fixed_clock client_profiles_db demo_world
    /\ revoke_consent "client_1_Retail Analytics Pro" demo_world = (inr msg, w')
    /\ aggregated_data_db w' = aggregated_data_db demo_world
    /\ consents_db w' = Dict.del "client_1_Retail Analytics Pro" (consents_db demo_world).
Proof.
  do 2 eexists.
  assert (E : revoke_consent "client_1_Retail Analytics Pro" demo_world
              = (inr "Согласие полностью отозвано",
                 snd (revoke_consent "client_1_Retail Analytics Pro" demo_world)))
    by reflexivity.
  split; [exact demo_world_reachable|]. split; [exact E|].
  exact (reachable_revoke_keeps_aggregates fixed_clock client_profiles_db demo_world
           _ _ _ demo_world_reachable E).
Defined.

(** Three category datasets that hold 0.1, 0.2 and 0.3 for one
    category merge to 0.6000000000000001 for it. *)
Lemma merge_category_spending_rounds :
  merge_category_spending panel_sample
  = [("Кафе", 0.6000000000000001%float); ("Транспорт", 50%float)].
Proof. reflexivity. Qed.
